(** * QR Code Suite: the orchestration handlers of [App.tsx]

    A shallow embedding of the handlers of [BulkGeneratorView] and
    [ScannerView] and of the helpers they use, with the properties of the
    specification stated and proved over it.

    JavaScript strings are sequences of UTF-16 code units; the third-party
    libraries ([qrcode], [jszip], [file-saver], [html5-qrcode]) and the
    browser ([URL], [Math.random], [Date.now], [alert], [console]) are
    interfaces whose answers are supplied from outside.  Every handler is a
    state transformer over the React state of its view, extended with the log
    of the calls it makes to those interfaces. *)

From Stdlib Require Import List NArith Arith Lia Bool String Ascii DecimalString.
Import ListNotations.

(* ================================================================== *)
(** ** JavaScript strings *)
(* ================================================================== *)

Module JS.

(** A UTF-16 code unit, and a string as the list of its code units. *)
Definition codeUnit := N.
Definition jsstring := list codeUnit.

(** A string literal whose characters are all below U+0100. *)
Definition lit (s : string) : jsstring :=
  map N_of_ascii (list_ascii_of_string s).

(** [s === t] *)
Fixpoint eqb (s t : jsstring) : bool :=
  match s, t with
  | [], [] => true
  | a :: s', b :: t' => N.eqb a b && eqb s' t'
  | _, _ => false
  end.

(** [Boolean(s)]: the empty string is the only falsy string. *)
Definition truthy (s : jsstring) : bool :=
  match s with [] => false | _ :: _ => true end.

(** [a || b] on strings. *)
Definition orElse (a b : jsstring) : jsstring :=
  if truthy a then a else b.

(** [String(n)] for a non-negative integer: its decimal digits. *)
Definition ofNat (n : nat) : jsstring :=
  lit (NilEmpty.string_of_uint (Nat.to_uint n)).

(** [s.split(sep)] with a separator of one code unit.  The result always
    has at least one piece: [''.split(sep)] is [['']]. *)
Fixpoint split (sep : codeUnit) (s : jsstring) : list jsstring :=
  match s with
  | [] => [[]]
  | c :: rest =>
      if N.eqb c sep then [] :: split sep rest
      else match split sep rest with
           | piece :: pieces => (c :: piece) :: pieces
           | [] => [[c]]
           end
  end.

(** The code units [String.prototype.trim] strips: WhiteSpace (TAB, VT, FF,
    SP, NBSP, ZWNBSP and the space separators) and LineTerminator (LF, CR,
    LS, PS). *)
Definition whiteSpace : list codeUnit :=
  [9; 10; 11; 12; 13; 32; 160; 5760;
   8192; 8193; 8194; 8195; 8196; 8197; 8198; 8199; 8200; 8201; 8202;
   8232; 8233; 8239; 8287; 12288; 65279]%N.

Definition isWhiteSpace (c : codeUnit) : bool :=
  existsb (N.eqb c) whiteSpace.

Fixpoint trimStart (s : jsstring) : jsstring :=
  match s with
  | [] => []
  | c :: rest => if isWhiteSpace c then trimStart rest else s
  end.

Definition trimEnd (s : jsstring) : jsstring := rev (trimStart (rev s)).

Definition trim (s : jsstring) : jsstring := trimEnd (trimStart s).

(** [s.slice(0, n)]. *)
Definition slice0 (n : nat) (s : jsstring) : jsstring := firstn n s.

(** *** The regular expression [/[^a-z0-9]/gi]

    A character class is a list of inclusive ranges, possibly negated.
    With the [i] flag and without the [u] flag a code unit [ch] matches the
    class when some member [a] of the class has
    [Canonicalize a = Canonicalize ch].  [Canonicalize] upper-cases through
    the Unicode table, keeps [ch] when the result is not one code unit, and
    keeps [ch] when [ch] is outside ASCII and the result would be inside. *)

Record CharClass := {
  invert : bool;
  ranges : list (codeUnit * codeUnit)
}.

Definition rangeChars (r : codeUnit * codeUnit) : list codeUnit :=
  let (lo, hi) := r in
  map N.of_nat (seq (N.to_nat lo) (N.to_nat hi + 1 - N.to_nat lo)).

Definition classChars (cc : CharClass) : list codeUnit :=
  flat_map rangeChars (ranges cc).

Section Regex.
(** The Unicode upper-case mapping of the engine, as the code units of the
    upper-cased one-character string.  Only its values outside ASCII are
    consulted. *)
Variable unicodeUpper : codeUnit -> list codeUnit.

Definition toUpperCase (ch : codeUnit) : list codeUnit :=
  if (ch <? 128)%N then
    (if (97 <=? ch)%N && (ch <=? 122)%N then [(ch - 32)%N] else [ch])
  else unicodeUpper ch.

Definition canonicalize (ch : codeUnit) : codeUnit :=
  match toUpperCase ch with
  | [cu] => if (128 <=? ch)%N && (cu <? 128)%N then ch else cu
  | _ => ch
  end.

Definition classMatches (cc : CharClass) (ch : codeUnit) : bool :=
  let found :=
    existsb (fun a => N.eqb (canonicalize a) (canonicalize ch))
            (classChars cc) in
  if invert cc then negb found else found.

(** [s.replace(re, by)] for a global regular expression made of one
    character class: every matching code unit is replaced. *)
Definition replaceAll (cc : CharClass) (by_ : jsstring) (s : jsstring)
  : jsstring :=
  flat_map (fun ch => if classMatches cc ch then by_ else [ch]) s.
End Regex.

(** [/[^a-z0-9]/] *)
Definition notAlnum : CharClass :=
  {| invert := true; ranges := [(97, 122); (48, 57)]%N |}.

End JS.

Import JS.

(* ================================================================== *)
(** ** The outside world: libraries, browser, and the log of calls *)
(* ================================================================== *)

(** How a promise settles. *)
Inductive settled (A : Type) : Type :=
| Resolved (value : A)
| Rejected (err : jsstring).
Arguments Resolved {A} value.
Arguments Rejected {A} err.

(** The options object given to [QRCode.toDataURL]. *)
Record QROptions := {
  width : N;
  margin : N;
  dark : jsstring;
  light : jsstring
}.

(** An uploaded file: its name and its bytes. *)
Record File := {
  file_name : jsstring;
  file_bytes : list N
}.

(** The file table of a [JSZip] instance: an object keyed by entry name, in
    insertion order.  An entry's content is the second argument given to
    [zip.file], which is [undefined] ([None]) when the data URL has no comma. *)
Definition Zip := list (jsstring * option jsstring).

(** The blob [generateAsync] resolves with: the archive of a file table. *)
Record Blob := { archived : Zip }.

(** The [qrcode] library. *)
Class QRCodeLib := {
  QRCode_toDataURL : jsstring -> QROptions -> settled jsstring
}.

(** A parsed [URL] object, as far as the view reads it. *)
Record URL := { scheme : jsstring }.

(** The [protocol] getter: the scheme followed by U+003A. *)
Definition protocol (u : URL) : jsstring := scheme u ++ lit ":".

(** The JavaScript engine and the browser: numbers and their printing, the
    pseudo-random source (the [n]-th draw of the session), the Unicode
    upper-case table, and the [URL] constructor ([None] when it throws). *)
Class Engine := {
  Number : Type;
  Number_toString : Number -> jsstring;
  Math_random : nat -> Number;
  unicodeUpper : codeUnit -> list codeUnit;
  URL_new : jsstring -> option URL
}.

(** The file decoder of [html5-qrcode]. *)
Class Html5QrcodeLib := {
  Html5Qrcode_scanFile : File -> settled jsstring
}.

(** The calls a handler makes to the outside, in the order it makes them. *)
Inductive Event : Type :=
| Ev_toDataURL (text : jsstring) (opts : QROptions)
| Ev_consoleError (msg : jsstring) (err : jsstring)
| Ev_consoleWarn (msg : jsstring) (err : jsstring)
| Ev_alert (msg : jsstring)
| Ev_scanFile (f : File)
| Ev_clearInput
| Ev_getCameras
| Ev_scannerStart
| Ev_scannerStop
| Ev_generateAsync (zip : Zip)
| Ev_saveAs (content : Blob) (name : jsstring).

Definition isCodecCall (e : Event) : bool :=
  match e with
  | Ev_toDataURL _ _ | Ev_scanFile _ => true
  | _ => false
  end.

(** The codec calls recorded in a log. *)
Definition codecCalls (l : list Event) : list Event := filter isCodecCall l.

(* ------------------------------------------------------------------ *)
(** *** Handlers as state transformers *)

(** A run of a handler: the React state of the view, the calls made so far
    and the number of [Math.random] draws made so far. *)
Record Run (V : Type) := {
  view : V;
  log : list Event;
  draws : nat
}.
Arguments Build_Run {V} view log draws.
Arguments view {V} r.
Arguments log {V} r.
Arguments draws {V} r.

Definition M (V A : Type) : Type := Run V -> A * Run V.

Definition ret {V A} (a : A) : M V A := fun r => (a, r).

Definition bind {V A B} (m : M V A) (k : A -> M V B) : M V B :=
  fun r => let (a, r') := m r in k a r'.

Declare Scope handler_scope.
Delimit Scope handler_scope with handler.
Notation "x <- m ;; k" := (bind m (fun x => k))
  (at level 61, m at next level, right associativity) : handler_scope.
Notation "m ;; k" := (bind m (fun _ => k))
  (at level 61, right associativity) : handler_scope.
Open Scope handler_scope.

Definition getState {V} : M V V := fun r => (view r, r).

Definition setState {V} (f : V -> V) : M V unit :=
  fun r => (tt, {| view := f (view r); log := log r; draws := draws r |}).

Definition emit {V} (e : Event) : M V unit :=
  fun r => (tt, {| view := view r; log := log r ++ [e]; draws := draws r |}).

(** The state a handler leaves. *)
Definition exec {V A} (m : M V A) (r : Run V) : Run V := snd (m r).

(** The calls a handler made during one run. *)
Definition callsOf {V A} (m : M V A) (r : Run V) : list Event :=
  skipn (List.length (log r)) (log (exec m r)).

Definition Math_random_call {V} `{Engine} : M V Number :=
  fun r => (Math_random (draws r),
            {| view := view r; log := log r; draws := S (draws r) |}).

Definition await_toDataURL {V} `{QRCodeLib} (text : jsstring) (opts : QROptions)
  : M V (settled jsstring) :=
  emit (Ev_toDataURL text opts) ;; ret (QRCode_toDataURL text opts).

Definition console_error {V} (msg err : jsstring) : M V unit :=
  emit (Ev_consoleError msg err).

Definition console_warn {V} (msg err : jsstring) : M V unit :=
  emit (Ev_consoleWarn msg err).

Definition alert {V} (msg : jsstring) : M V unit := emit (Ev_alert msg).

(** The [jszip] library: whether generating the archive of a file table
    fails, and with which error.  When it does not fail the promise resolves
    with the blob of that table. *)
Class JSZipLib := {
  JSZip_failure : Zip -> option jsstring
}.

Definition JSZip_generateAsync `{JSZipLib} (zip : Zip) : settled Blob :=
  match JSZip_failure zip with
  | None => Resolved {| archived := zip |}
  | Some err => Rejected err
  end.

(** [zip.file(name, data, ...)]: [this.files[name] = ...].  Assigning an
    existing key replaces its value and keeps its place. *)
Fixpoint JSZip_file (name : jsstring) (data : option jsstring) (zip : Zip)
  : Zip :=
  match zip with
  | [] => [(name, data)]
  | (n, d) :: rest =>
      if JS.eqb n name then (n, data) :: rest
      else (n, d) :: JSZip_file name data rest
  end.

(** [zip.files[name]] *)
Fixpoint JSZip_lookup (name : jsstring) (zip : Zip) : option (option jsstring) :=
  match zip with
  | [] => None
  | (n, d) :: rest => if JS.eqb n name then Some d else JSZip_lookup name rest
  end.

(* ================================================================== *)
(** ** [BulkGeneratorView] *)
(* ================================================================== *)

Module BulkGeneratorView.

Record GeneratedQR := {
  id : jsstring;
  url : jsstring;
  dataUrl : jsstring
}.

(** The three [useState] cells of the view. *)
Record State := {
  urls : jsstring;
  qrs : list GeneratedQR;
  isLoading : bool
}.

Definition setQrs (v : list GeneratedQR) : M State unit :=
  setState (fun st => {| urls := urls st; qrs := v; isLoading := isLoading st |}).

Definition setIsLoading (v : bool) : M State unit :=
  setState (fun st => {| urls := urls st; qrs := qrs st; isLoading := v |}).

Definition bulkOptions : QROptions :=
  {| width := 128; margin := 1;
     dark := lit "#020617"; light := lit "#e2e8f0" |}.

(** [urls.split('\n').map(u => u.trim()).filter(Boolean)] *)
Definition urlListOf (urls : jsstring) : list jsstring :=
  filter truthy (map trim (split 10%N urls)).

Section Handlers.
Context `{QRCodeLib} `{Engine} `{JSZipLib}.

(** The body of [for (const url of urlList)], with [generatedQrs] as the
    array the loop pushes to. *)
Fixpoint forOf (urlList : list jsstring) (generatedQrs : list GeneratedQR)
  : M State (list GeneratedQR) :=
  match urlList with
  | [] => ret generatedQrs
  | url :: rest =>
      r <- await_toDataURL url bulkOptions ;;
      match r with
      | Resolved dataUrl =>
          x <- Math_random_call ;;
          forOf rest
            (generatedQrs ++
             [{| id := lit "qr-" ++ Number_toString x;
                 url := url; dataUrl := dataUrl |}])
      | Rejected err =>
          console_error (lit "Failed to generate QR for " ++ url) err ;;
          forOf rest generatedQrs
      end
  end.

Definition generateBulk : M State unit :=
  st <- getState ;;
  let urlList := urlListOf (urls st) in
  if Nat.eqb (List.length urlList) 0 then ret tt
  else
    setIsLoading true ;;
    generatedQrs <- forOf urlList [] ;;
    setQrs generatedQrs ;;
    setIsLoading false.

(** [qr.url.replace(/[^a-z0-9]/gi, '_').slice(0, 50) || `qrcode_${index + 1}`] *)
Definition fileName (qr : GeneratedQR) (index : nat) : jsstring :=
  orElse
    (slice0 50 (replaceAll unicodeUpper notAlnum (lit "_") (url qr)))
    (lit "qrcode_" ++ ofNat (index + 1)).

(** [qrs.forEach((qr, index) => zip.file(...))], from [index] on. *)
Fixpoint forEach (qrs : list GeneratedQR) (index : nat) (zip : Zip) : Zip :=
  match qrs with
  | [] => zip
  | qr :: rest =>
      forEach rest (S index)
        (JSZip_file (fileName qr index ++ lit ".png")
                    (nth_error (split 44%N (dataUrl qr)) 1) zip)
  end.

(** [downloadZip] up to the call of [generateAsync]; it returns the
    pending promise's settlement. *)
Definition downloadZip : M State (settled Blob) :=
  st <- getState ;;
  let zip := forEach (qrs st) 0 [] in
  emit (Ev_generateAsync zip) ;;
  ret (JSZip_generateAsync zip).

(** The [.then] callback of [generateAsync]; [now] is [Date.now()].
    There is no [.catch]: a rejection runs no code of the view. *)
Definition generateAsync_then (content : Blob) (now : N) : M State unit :=
  emit (Ev_saveAs content
          (lit "qrcodes_"
           ++ lit (NilEmpty.string_of_uint (N.to_uint now))
           ++ lit ".zip")).

(** The lines of a batch that the codec encodes. *)
Definition succeeded (url : jsstring) : bool :=
  match QRCode_toDataURL url bulkOptions with
  | Resolved _ => true
  | Rejected _ => false
  end.

Definition successes (urlList : list jsstring) : list jsstring :=
  filter succeeded urlList.

(** The results the loop pushes for a batch when [d] draws were made before
    it starts. *)
Fixpoint produced (d : nat) (urlList : list jsstring) : list GeneratedQR :=
  match urlList with
  | [] => []
  | url :: rest =>
      match QRCode_toDataURL url bulkOptions with
      | Resolved dataUrl =>
          {| id := lit "qr-" ++ Number_toString (Math_random d);
             url := url; dataUrl := dataUrl |} :: produced (S d) rest
      | Rejected _ => produced d rest
      end
  end.

(** The calls the loop makes for a batch. *)
Fixpoint forOfCalls (urlList : list jsstring) : list Event :=
  match urlList with
  | [] => []
  | url :: rest =>
      Ev_toDataURL url bulkOptions ::
      match QRCode_toDataURL url bulkOptions with
      | Resolved _ => forOfCalls rest
      | Rejected err =>
          Ev_consoleError (lit "Failed to generate QR for " ++ url) err
          :: forOfCalls rest
      end
  end.

(** The entry names [forEach] gives to the results, from [index] on. *)
Fixpoint entryNames (qrs : list GeneratedQR) (index : nat) : list jsstring :=
  match qrs with
  | [] => []
  | qr :: rest => (fileName qr index ++ lit ".png") :: entryNames rest (S index)
  end.

(** [downloadZip] together with the settlement of its promise. *)
Definition downloadZip_settled (now : N) : M State unit :=
  p <- downloadZip ;;
  match p with
  | Resolved content => generateAsync_then content now
  | Rejected _ => ret tt
  end.
End Handlers.

End BulkGeneratorView.

(* ================================================================== *)
(** ** [ScannerView] *)
(* ================================================================== *)

Module ScannerView.

Record ScanResult := {
  fileName : jsstring;
  decodedText : jsstring
}.

(** An [Html5Qrcode] object as the view observes it: the element it was
    created for and the value of its [isScanning] getter, which the library
    changes as the camera stream opens and closes. *)
Record Html5Qrcode := {
  elementId : jsstring;
  Html5Qrcode_isScanning : bool
}.

(** The [useState] cells of the view and the [scannerRef] cell; the object
    in [scannerRef.current] is the one the start call was made on. *)
Record State := {
  scanResults : list ScanResult;
  isScanning : bool;
  isProcessingFile : bool;
  scannerRef : option Html5Qrcode
}.

Definition setScanResults (v : list ScanResult) : M State unit :=
  setState (fun st => {| scanResults := v; isScanning := isScanning st;
                         isProcessingFile := isProcessingFile st;
                         scannerRef := scannerRef st |}).

Definition setIsScanning (v : bool) : M State unit :=
  setState (fun st => {| scanResults := scanResults st; isScanning := v;
                         isProcessingFile := isProcessingFile st;
                         scannerRef := scannerRef st |}).

Definition setIsProcessingFile (v : bool) : M State unit :=
  setState (fun st => {| scanResults := scanResults st;
                         isScanning := isScanning st;
                         isProcessingFile := v;
                         scannerRef := scannerRef st |}).

Definition setScannerRef (v : option Html5Qrcode) : M State unit :=
  setState (fun st => {| scanResults := scanResults st;
                         isScanning := isScanning st;
                         isProcessingFile := isProcessingFile st;
                         scannerRef := v |}).

Definition readerId : jsstring := lit "qr-reader".

(** [new Html5Qrcode(readerId)]: a scanner that is not scanning. *)
Definition new_Html5Qrcode (element : jsstring) : Html5Qrcode :=
  {| elementId := element; Html5Qrcode_isScanning := false |}.

Definition cameraLabel : jsstring := lit "Camera Scan".

Definition tooManyFilesNotice : jsstring :=
  lit "You can upload a maximum of 10 files at a time.".

Definition nothingFoundNotice : jsstring :=
  lit "Could not find a QR code in any of the selected images. Please try different ones.".

Definition permissionNotice : jsstring :=
  lit "Could not get camera permissions. Please allow camera access in your browser settings.".

Inductive Rendered := Link | PlainText.

(** *** Live capture *)

(** [stopScan], up to the call of [stop()]. *)
Definition stopScan : M State unit :=
  st <- getState ;;
  match scannerRef st with
  | Some scanner =>
      if Html5Qrcode_isScanning scanner then emit Ev_scannerStop
      else ret tt
  | None => ret tt
  end.

(** The [.then] callback of [stop()]. *)
Definition stop_then : M State unit :=
  setIsScanning false ;;
  setScannerRef None.

(** The [.catch] callback of [stop()]. *)
Definition stop_catch (err : jsstring) : M State unit :=
  console_error (lit "Failed to stop scanner") err ;;
  setIsScanning false.

(** The success callback given to [html5QrCode.start]. *)
Definition qrCodeSuccessCallback (text : jsstring) : M State unit :=
  setScanResults [{| fileName := cameraLabel; decodedText := text |}] ;;
  stopScan.

(** The error callback given to [html5QrCode.start]: its body is empty. *)
Definition qrCodeErrorCallback (errorMessage : jsstring) : M State unit :=
  ret tt.

(** [startScan], up to the call of [html5QrCode.start]; [cameras] is how
    [Html5Qrcode.getCameras()] settles ([None] for a falsy device list). *)
Definition startScan (cameras : settled (option (list jsstring)))
  : M State unit :=
  setScanResults [] ;;
  emit Ev_getCameras ;;
  match cameras with
  | Resolved devices =>
      match devices with
      | Some (_ :: _) =>
          setIsScanning true ;;
          setScannerRef (Some (new_Html5Qrcode readerId)) ;;
          emit Ev_scannerStart
      | _ => ret tt
      end
  | Rejected err =>
      console_error (lit "Camera permissions error:") err ;;
      alert permissionNotice
  end.

(** The [.catch] callback of [html5QrCode.start]. *)
Definition start_catch (err : jsstring) : M State unit :=
  console_error (lit "Unable to start scanning.") err ;;
  setIsScanning false.


(** The cleanup of the [useEffect]. *)
Definition cleanup : M State unit :=
  st <- getState ;;
  match scannerRef st with
  | Some scanner =>
      if Html5Qrcode_isScanning scanner then stopScan else ret tt
  | None => ret tt
  end.

(** *** Uploaded files *)

Section Handlers.
Context `{Html5QrcodeLib} `{Engine}.

(** [Array.from(files).map(file => html5QrCode.scanFile(file, false)...)]:
    the decodes are all launched, in the order of the files, before any
    of them settles. *)
Fixpoint scanPromises (files : list File) : M State unit :=
  match files with
  | [] => ret tt
  | file :: rest => emit (Ev_scanFile file) ;; scanPromises rest
  end.

(** The [.then] and [.catch] callbacks of one decode: [null] is [None]. *)
Definition scanSettled (file : File) : M State (option ScanResult) :=
  match Html5Qrcode_scanFile file with
  | Resolved text =>
      ret (Some {| fileName := file_name file; decodedText := text |})
  | Rejected err =>
      console_warn (lit "Could not scan file: " ++ file_name file) err ;;
      ret None
  end.

(** [await Promise.all(scanPromises)]: whatever the order in which the
    decodes settle, the results are in the order of the files. *)
Fixpoint promiseAll (files : list File) : M State (list (option ScanResult)) :=
  match files with
  | [] => ret []
  | file :: rest =>
      r <- scanSettled file ;;
      rs <- promiseAll rest ;;
      ret (r :: rs)
  end.

(** [allResults.filter(result => result !== null)] *)
Fixpoint notNull (allResults : list (option ScanResult)) : list ScanResult :=
  match allResults with
  | [] => []
  | Some r :: rest => r :: notNull rest
  | None :: rest => notNull rest
  end.

(** [handleFileChange]; [files] is [event.target.files], [None] when it
    is [null]. *)
Definition handleFileChange (files : option (list File)) : M State unit :=
  match files with
  | None => ret tt
  | Some files =>
      if Nat.eqb (List.length files) 0 then ret tt
      else if Nat.ltb 10 (List.length files) then
        alert tooManyFilesNotice ;;
        emit Ev_clearInput
      else
        setIsProcessingFile true ;;
        setScanResults [] ;;
        scanPromises files ;;
        allResults <- promiseAll files ;;
        let successfulScans := notNull allResults in
        setScanResults successfulScans ;;
        (if Nat.eqb (List.length successfulScans) 0
         then alert nothingFoundNotice else ret tt) ;;
        setIsProcessingFile false ;;
        emit Ev_clearInput
  end.

(** *** Rendering a result *)

Definition isSafeUrl (url : jsstring) : bool :=
  match URL_new url with
  | Some parsedUrl =>
      existsb (JS.eqb (protocol parsedUrl))
              [lit "https:"; lit "http:"; lit "mailto:"; lit "tel:"]
  | None => false
  end.

(** The schemes of the protocols [isSafeUrl] accepts. *)
Definition allowedSchemes : list jsstring :=
  [lit "https"; lit "http"; lit "mailto"; lit "tel"].

(** [text] parses as a URL whose scheme is [sch]. *)
Definition parsesWithScheme (text sch : jsstring) : Prop :=
  exists u, URL_new text = Some u /\ scheme u = sch.

(** What a decoded text is rendered as: an anchor ([Link]) or a span
    ([PlainText]). *)
Definition classify (text : jsstring) : Rendered :=
  if isSafeUrl text then Link else PlainText.

Definition render (result : ScanResult) : Rendered :=
  classify (decodedText result).
End Handlers.

(** A capture session is active when [scannerRef.current] holds a scanner
    that reports [isScanning]: the guard of [stopScan]. *)
Definition sessionActive (st : State) : bool :=
  match scannerRef st with
  | Some scanner => Html5Qrcode_isScanning scanner
  | None => false
  end.

End ScannerView.

(* ================================================================== *)
(** ** The file-name derivation in the words of the specification *)
(* ================================================================== *)

Module Spec.

(** A character inside [[a-zA-Z0-9]]. *)
Definition isAlnum (c : codeUnit) : bool :=
  ((97 <=? c) && (c <=? 122) || (65 <=? c) && (c <=? 90)
   || (48 <=? c) && (c <=? 57))%N.

(** Every character outside [[a-zA-Z0-9]] replaced by ['_']. *)
Definition sanitize (sourceText : jsstring) : jsstring :=
  map (fun c => if isAlnum c then c else 95%N) sourceText.

(** Sanitize, truncate to 50 characters, and fall back to
    [qrcode_<1-based-index>] when the result is empty. *)
Definition fileName (sourceText : jsstring) (index1 : nat) : jsstring :=
  match firstn 50 (sanitize sourceText) with
  | [] => lit "qrcode_" ++ ofNat index1
  | name => name
  end.

End Spec.

(* ================================================================== *)
(** ** Concrete worlds, for evaluating the handlers *)
(* ================================================================== *)

Module Sample.

(** A codec that accepts the texts of at most three code units. *)
Definition toDataURL (text : jsstring) (opts : QROptions) : settled jsstring :=
  if Nat.leb (List.length text) 3
  then Resolved (lit "data:image/png;base64," ++ text)
  else Rejected (lit "The amount of data is too big to be stored in a QR Code").

#[local] Instance qrcode : QRCodeLib := {| QRCode_toDataURL := toDataURL |}.

(** A [URL] constructor that only looks for the scheme: an ASCII letter
    followed by letters, digits, [+], [-] and [.] up to a colon. *)
Definition isAlpha (c : codeUnit) : bool :=
  ((97 <=? c) && (c <=? 122) || (65 <=? c) && (c <=? 90))%N.

Definition isSchemeChar (c : codeUnit) : bool :=
  (isAlpha c || (48 <=? c) && (c <=? 57)
   || (c =? 43) || (c =? 45) || (c =? 46))%N.

Definition lower (c : codeUnit) : codeUnit :=
  if ((65 <=? c) && (c <=? 90))%N then (c + 32)%N else c.

Fixpoint scanScheme (s acc : jsstring) : option jsstring :=
  match s with
  | [] => None
  | c :: rest =>
      if (c =? 58)%N then Some (rev acc)
      else if isSchemeChar c then scanScheme rest (lower c :: acc)
      else None
  end.

Definition newURL (s : jsstring) : option URL :=
  match s with
  | c :: _ =>
      if isAlpha c then
        match scanScheme s [] with
        | Some sch => Some {| scheme := sch |}
        | None => None
        end
      else None
  | [] => None
  end.

(** Numbers are printed as [0.<n>]. *)
Definition printNumber (n : N) : jsstring :=
  lit "0." ++ lit (NilEmpty.string_of_uint (N.to_uint n)).

(** An engine whose random source gives a different number at each draw. *)
#[local] Instance counting : Engine := {|
  Number := N;
  Number_toString := printNumber;
  Math_random := fun n => N.of_nat (n + 1);
  unicodeUpper := fun c => [c];
  URL_new := newURL
|}.

(** An engine whose random source gives the same number at each draw. *)
#[local] Instance repeating : Engine := {|
  Number := N;
  Number_toString := printNumber;
  Math_random := fun _ => 5%N;
  unicodeUpper := fun c => [c];
  URL_new := newURL
|}.

(** An archiver that never fails, and one that always does. *)
#[local] Instance zipOk : JSZipLib := {| JSZip_failure := fun _ => None |}.

#[local] Instance zipFails : JSZipLib :=
  {| JSZip_failure := fun _ => Some (lit "Invalid base64 input") |}.

(** A decoder that finds a symbol in the files whose first byte is [1]. *)
#[local] Instance decoder : Html5QrcodeLib := {|
  Html5Qrcode_scanFile := fun f =>
    match file_bytes f with
    | 1%N :: text => Resolved text
    | _ => Rejected (lit "No MultiFormat Readers were able to detect the code.")
    end
|}.

End Sample.

(* ================================================================== *)
(** ** [GeneratorView] *)
(* ================================================================== *)

Module GeneratorView.

(** The three [useState] cells of the view. *)
Record State := {
  url : jsstring;
  qrCode : jsstring;
  isLoading : bool
}.

Definition setQrCode (v : jsstring) : M State unit :=
  setState (fun st => {| url := url st; qrCode := v; isLoading := isLoading st |}).

Definition setIsLoading (v : bool) : M State unit :=
  setState (fun st => {| url := url st; qrCode := qrCode st; isLoading := v |}).

Definition singleOptions : QROptions :=
  {| width := 256; margin := 2;
     dark := lit "#020617"; light := lit "#e2e8f0" |}.

(** [generateQR], up to the call of [QRCode.toDataURL]; the result tells
    whether the call was made, that is whether a callback is pending. *)
Definition generateQR : M State bool :=
  st <- getState ;;
  if negb (truthy (trim (url st))) then
    setQrCode [] ;; ret false
  else
    setIsLoading true ;;
    emit (Ev_toDataURL (url st) singleOptions) ;;
    ret true.

(** The callback given to [QRCode.toDataURL]; [err] is [None] when it is
    [null].  [console.error(err)] has the error as its only argument. *)
Definition toDataURL_callback (err : option jsstring) (dataUrl : jsstring)
  : M State unit :=
  setIsLoading false ;;
  match err with
  | Some e => console_error e [] ;; setQrCode []
  | None => setQrCode dataUrl
  end.

(** [generateQR] together with the call of its callback. *)
Definition generateQR_settled `{QRCodeLib} : M State unit :=
  st <- getState ;;
  pending <- generateQR ;;
  if pending then
    match QRCode_toDataURL (url st) singleOptions with
    | Resolved dataUrl => toDataURL_callback None dataUrl
    | Rejected err => toDataURL_callback (Some err) []
    end
  else ret tt.

(** [disabled={!url || isLoading}] on the button. *)
Definition generateDisabled (st : State) : bool :=
  negb (truthy (url st)) || isLoading st.

End GeneratorView.

(* ================================================================== *)
(** ** Conditions of the markup *)
(* ================================================================== *)

Module Markup.

(** [disabled={!urls || isLoading}] on the button of the bulk view. *)
Definition bulkGenerateDisabled (st : BulkGeneratorView.State) : bool :=
  negb (truthy (BulkGeneratorView.urls st)) || BulkGeneratorView.isLoading st.

(** [qrs.length > 0 && ...]: the archive button and the grid are shown. *)
Definition zipButtonShown (st : BulkGeneratorView.State) : bool :=
  Nat.ltb 0 (List.length (BulkGeneratorView.qrs st)).

(** [!isScanning && ...]: the start and upload buttons are shown. *)
Definition startControlsShown (st : ScannerView.State) : bool :=
  negb (ScannerView.isScanning st).

End Markup.

(* ================================================================== *)
(** ** The service worker *)
(* ================================================================== *)

Module ServiceWorker.

Definition CACHE_NAME : jsstring := lit "qr-suite-cache-v3".

Definition urlsToCache : list jsstring :=
  [lit "/";
   lit "/index.html";
   lit "/manifest.json";
   lit "/images/icons/icon-192x192.png";
   lit "/images/icons/icon-512x512.png";
   lit "/images/icons/maskable_icon.png";
   lit "https://cdn.tailwindcss.com";
   lit "https://esm.sh/react@^19.1.1";
   lit "https://esm.sh/react-dom@^19.1.1/client";
   lit "https://esm.sh/qrcode@1.5.3";
   lit "https://esm.sh/jszip@3.10.1";
   lit "https://esm.sh/file-saver@2.0.5";
   lit "https://esm.sh/html5-qrcode@2.3.8"].

(** A response: whether its status is in the 200 range, and its body. *)
Record Response := {
  ok : bool;
  body : jsstring
}.

(** A cache maps request URLs to responses; the cache storage maps cache
    names to caches, in the order of their creation. *)
Definition Cache := list (jsstring * Response).
Definition CacheStorage := list (jsstring * Cache).

(** The network: how [fetch(url)] settles. *)
Class Network := {
  fetch : jsstring -> settled Response
}.

(** The calls of the worker to the outside. *)
Inductive SWEvent : Type :=
| Sw_consoleLog (msg : jsstring) (arg : jsstring)
| Sw_fetch (url : jsstring)
| Sw_cachesDelete (name : jsstring).

(** [cache.match(url)] *)
Fixpoint cache_match (url : jsstring) (c : Cache) : option Response :=
  match c with
  | [] => None
  | (u, resp) :: rest =>
      if JS.eqb u url then Some resp else cache_match url rest
  end.

(** [cache.put(url, response)]: an entry of the same URL is replaced. *)
Fixpoint cache_put (url : jsstring) (resp : Response) (c : Cache) : Cache :=
  match c with
  | [] => [(url, resp)]
  | (u, r) :: rest =>
      if JS.eqb u url then (u, resp) :: rest
      else (u, r) :: cache_put url resp rest
  end.

(** [caches.match(url)]: the first match, in the order of the caches. *)
Fixpoint caches_match (url : jsstring) (cs : CacheStorage) : option Response :=
  match cs with
  | [] => None
  | (_, c) :: rest =>
      match cache_match url c with
      | Some resp => Some resp
      | None => caches_match url rest
      end
  end.

Definition caches_has (name : jsstring) (cs : CacheStorage) : bool :=
  existsb (fun e => JS.eqb (fst e) name) cs.

(** [caches.open(name)]: the cache is created, empty, when it is missing. *)
Definition caches_open (name : jsstring) (cs : CacheStorage) : CacheStorage :=
  if caches_has name cs then cs else cs ++ [(name, [])].

(** [caches.delete(name)] *)
Definition caches_delete (name : jsstring) (cs : CacheStorage) : CacheStorage :=
  filter (fun e => negb (JS.eqb (fst e) name)) cs.

(** The cache that [caches.open(name)] resolves with, replaced by [f] of it. *)
Fixpoint cache_update (name : jsstring) (f : Cache -> Cache) (cs : CacheStorage)
  : CacheStorage :=
  match cs with
  | [] => []
  | (n, c) :: rest =>
      if JS.eqb n name then (n, f c) :: rest
      else (n, c) :: cache_update name f rest
  end.

Section Handlers.
Context `{Network}.

(** The responses [cache.addAll(urls)] waits for: it rejects when a fetch
    fails or a response is not [ok]. *)
Fixpoint fetchAll (urls : list jsstring) : settled (list (jsstring * Response)) :=
  match urls with
  | [] => Resolved []
  | url :: rest =>
      match fetch url with
      | Resolved resp =>
          if ok resp then
            match fetchAll rest with
            | Resolved rs => Resolved ((url, resp) :: rs)
            | Rejected err => Rejected err
            end
          else Rejected (lit "Request failed")
      | Rejected err => Rejected err
      end
  end.

Definition putAll (entries : list (jsstring * Response)) (c : Cache) : Cache :=
  fold_left (fun acc e => cache_put (fst e) (snd e) acc) entries c.

(** The [install] listener: what [event.waitUntil] is given settles as the
    first component; then the storage and the calls. *)
Definition onInstall (cs : CacheStorage)
  : settled unit * CacheStorage * list SWEvent :=
  let opened := caches_open CACHE_NAME cs in
  let calls := Sw_consoleLog (lit "Opened cache") [] :: map Sw_fetch urlsToCache in
  match fetchAll urlsToCache with
  | Resolved entries =>
      (Resolved tt, cache_update CACHE_NAME (putAll entries) opened, calls)
  | Rejected err => (Rejected err, opened, calls)
  end.

(** [cacheWhitelist.indexOf(cacheName) === -1] *)
Definition cacheWhitelist : list jsstring := [CACHE_NAME].

Definition notListed (cacheName : jsstring) : bool :=
  negb (existsb (JS.eqb cacheName) cacheWhitelist).

(** [cacheNames.map(cacheName => ...)] of the [activate] listener. *)
Fixpoint deleteOld (cacheNames : list jsstring) (cs : CacheStorage)
  : CacheStorage * list SWEvent :=
  match cacheNames with
  | [] => (cs, [])
  | cacheName :: rest =>
      if notListed cacheName then
        let (cs', calls) := deleteOld rest (caches_delete cacheName cs) in
        (cs', Sw_consoleLog (lit "Deleting old cache:") cacheName
              :: Sw_cachesDelete cacheName :: calls)
      else deleteOld rest cs
  end.

(** The [activate] listener; [caches.keys()] gives the names in order. *)
Definition onActivate (cs : CacheStorage) : CacheStorage * list SWEvent :=
  deleteOld (map fst cs) cs.

(** The [fetch] listener: what [event.respondWith] is given, and the calls. *)
Definition onFetch (request : jsstring) (cs : CacheStorage)
  : settled Response * list SWEvent :=
  match caches_match request cs with
  | Some response => (Resolved response, [])
  | None => (fetch request, [Sw_fetch request])
  end.

End Handlers.

End ServiceWorker.

(** A network on which every request succeeds, for evaluating the worker. *)
Module SampleNetwork.

#[local] Instance online : ServiceWorker.Network := {|
  ServiceWorker.fetch := fun url =>
    Resolved {| ServiceWorker.ok := true; ServiceWorker.body := url |}
|}.

End SampleNetwork.

(* ================================================================== *)
(** ** Properties *)
(* ================================================================== *)

Import BulkGeneratorView.

(** *** Strings *)

Lemma truthy_nonempty (s : jsstring) : truthy s = true <-> s <> [].
Proof. destruct s; simpl; split; congruence. Qed.

Lemma trimStart_idem (s : jsstring) : trimStart (trimStart s) = trimStart s.
Proof.
  induction s as [|c s IH]; simpl; [reflexivity|].
  destruct (isWhiteSpace c) eqn:E; [exact IH|].
  simpl. now rewrite E.
Qed.

(** What [trimStart] returns is a suffix of its argument. *)
Lemma trimStart_suffix (s : jsstring) : exists p, s = p ++ trimStart s.
Proof.
  induction s as [|c s [p IH]]; simpl.
  - now exists [].
  - destruct (isWhiteSpace c).
    + exists (c :: p). simpl. now f_equal.
    + now exists [].
Qed.

Lemma trimStart_app_keep (s : jsstring) (c : codeUnit) :
  isWhiteSpace c = false -> exists u, trimStart (s ++ [c]) = u ++ [c].
Proof.
  intros Hc. induction s as [|d s [u IH]]; simpl.
  - rewrite Hc. now exists [].
  - destruct (isWhiteSpace d).
    + now exists u.
    + now exists (d :: s).
Qed.

Lemma trimEnd_idem (s : jsstring) : trimEnd (trimEnd s) = trimEnd s.
Proof. unfold trimEnd. now rewrite rev_involutive, trimStart_idem. Qed.

Lemma trimStart_trimEnd (s : jsstring) :
  trimStart (trimEnd (trimStart s)) = trimEnd (trimStart s).
Proof.
  destruct (trimStart s) as [|c t] eqn:E; [reflexivity|].
  assert (Hc : isWhiteSpace c = false).
  { destruct (isWhiteSpace c) eqn:W; [|reflexivity].
    pose proof (trimStart_idem s) as I. rewrite E in I. simpl in I.
    rewrite W in I.
    destruct (trimStart_suffix t) as [p Hp].
    apply (f_equal (@List.length _)) in I. rewrite Hp in I at 2.
    simpl in I. rewrite length_app in I. lia. }
  unfold trimEnd. simpl rev.
  destruct (trimStart_app_keep (rev t) c Hc) as [u Hu]. rewrite Hu.
  rewrite rev_app_distr. simpl. now rewrite Hc.
Qed.

(** [trim] leaves a trimmed string as it is. *)
Lemma trim_idem (s : jsstring) : trim (trim s) = trim s.
Proof.
  unfold trim. rewrite trimStart_trimEnd. apply trimEnd_idem.
Qed.

(** The lines of the batch are trimmed and non-empty. *)
Lemma urlListOf_lines (text line : jsstring) :
  In line (urlListOf text) -> trim line = line /\ line <> [].
Proof.
  unfold urlListOf. rewrite filter_In, in_map_iff.
  intros [[raw [<- _]] T]. split; [apply trim_idem|now apply truthy_nonempty].
Qed.

(** *** The regular expression [/[^a-z0-9]/gi] *)

Section RegexFacts.
Variable up : codeUnit -> list codeUnit.

(** A code unit outside ASCII never canonicalizes into ASCII. *)
Lemma canonicalize_nonascii (ch : codeUnit) :
  (128 <= ch)%N -> (128 <= canonicalize up ch)%N.
Proof.
  intros Hch. unfold canonicalize.
  destruct (toUpperCase up ch) as [|cu [|? ?]]; try assumption.
  destruct (N.leb_spec 128 ch); [|lia]. simpl.
  destruct (N.ltb_spec cu 128); [assumption|lia].
Qed.

(** The members of the class canonicalize to A-Z and 0-9. *)
Lemma canonicalize_class :
  map (canonicalize up) (classChars notAlnum)
  = map N.of_nat (seq 65 26 ++ seq 48 10).
Proof. reflexivity. Qed.

Lemma existsb_eqb_map (f : codeUnit -> codeUnit) (x : codeUnit) l :
  existsb (fun a => N.eqb (f a) x) l = existsb (fun y => N.eqb y x) (map f l).
Proof. induction l; simpl; congruence. Qed.

(** Below 128 the class and [[a-zA-Z0-9]] agree, by enumeration. *)
Lemma classMatches_ascii_table :
  forallb (fun n => Bool.eqb (classMatches up notAlnum (N.of_nat n))
                             (negb (Spec.isAlnum (N.of_nat n))))
          (seq 0 128) = true.
Proof. vm_compute. reflexivity. Qed.

(** With the [i] flag the negated class matches exactly the code units
    outside [[a-zA-Z0-9]]. *)
Lemma classMatches_notAlnum (ch : codeUnit) :
  classMatches up notAlnum ch = negb (Spec.isAlnum ch).
Proof.
  destruct (N.lt_ge_cases ch 128) as [Hlt|Hge].
  - pose proof classMatches_ascii_table as T.
    rewrite forallb_forall in T.
    specialize (T (N.to_nat ch)).
    rewrite N2Nat.id in T. apply Bool.eqb_prop, T.
    apply in_seq. lia.
  - pose proof (canonicalize_nonascii ch Hge) as Hc.
    unfold classMatches. simpl invert.
    rewrite existsb_eqb_map, canonicalize_class.
    replace (Spec.isAlnum ch) with false.
    + f_equal. apply not_true_is_false. intros E.
      apply existsb_exists in E. destruct E as [y [Hy E]].
      apply N.eqb_eq in E. subst y.
      apply in_map_iff in Hy. destruct Hy as [n [Hn Hin]].
      apply in_app_or in Hin. rewrite !in_seq in Hin. lia.
    + symmetry. unfold Spec.isAlnum.
      destruct (N.leb_spec ch 122), (N.leb_spec ch 90), (N.leb_spec ch 57);
        lia.
Qed.

Lemma replaceAll_sanitize (s : jsstring) :
  replaceAll up notAlnum (lit "_") s = Spec.sanitize s.
Proof.
  induction s as [|c s IH]; [reflexivity|].
  unfold replaceAll in *. simpl. rewrite IH, classMatches_notAlnum.
  now destruct (Spec.isAlnum c).
Qed.

End RegexFacts.

(** *** Logs *)

Lemma skipn_app_exact {A} (l1 l2 : list A) :
  skipn (List.length l1) (l1 ++ l2) = l2.
Proof. induction l1; simpl; auto. Qed.

Lemma callsOf_unchanged {V A} (m : M V A) (r : Run V) :
  exec m r = r -> callsOf m r = [].
Proof.
  intros E. unfold callsOf. rewrite E.
  rewrite <- (app_nil_r (log r)) at 2. apply skipn_app_exact.
Qed.

Lemma callsOf_appended {V A} (m : M V A) (r : Run V) (evs : list Event) :
  log (exec m r) = log r ++ evs -> callsOf m r = evs.
Proof. intros E. unfold callsOf. rewrite E. apply skipn_app_exact. Qed.


(** *** The encode loop *)

Section BulkFacts.
Context `{QRCodeLib} `{Engine}.

(** The loop appends the produced results to the array, logs one codec call
    per line and one error per failure, and draws one number per success. *)
Lemma forOf_run (urlList : list jsstring) :
  forall (acc : list GeneratedQR) (r : Run State),
    forOf urlList acc r =
    (acc ++ produced (draws r) urlList,
     {| view := view r;
        log := log r ++ forOfCalls urlList;
        draws := draws r + List.length (successes urlList) |}).
Proof.
  induction urlList as [|u rest IH]; intros acc r.
  - simpl. rewrite !app_nil_r, Nat.add_0_r. now destruct r.
  - cbn [forOf]. unfold await_toDataURL, bind, emit, ret. cbn [fst snd].
    unfold successes in *. cbn [filter produced forOfCalls]. unfold succeeded at 1.
    destruct (QRCode_toDataURL u bulkOptions) as [dataUrl|err].
    + unfold Math_random_call. rewrite IH. cbn [view log draws List.length].
      rewrite <- !app_assoc. cbn [app].
      f_equal. f_equal. lia.
    + unfold console_error, emit. rewrite IH. cbn [view log draws].
      now rewrite <- !app_assoc.
Qed.

Lemma produced_url (urlList : list jsstring) :
  forall d, map url (produced d urlList) = successes urlList.
Proof.
  unfold successes. induction urlList as [|u rest IH]; intros d; simpl.
  - reflexivity.
  - unfold succeeded at 1.
    destruct (QRCode_toDataURL u bulkOptions); simpl; now rewrite IH.
Qed.

Lemma produced_length (d : nat) (urlList : list jsstring) :
  List.length (produced d urlList) = List.length (successes urlList).
Proof. now rewrite <- (produced_url urlList d), length_map. Qed.

Lemma produced_dataUrl (urlList : list jsstring) :
  forall d qr, In qr (produced d urlList) ->
               QRCode_toDataURL (url qr) bulkOptions = Resolved (dataUrl qr).
Proof.
  induction urlList as [|u rest IH]; intros d qr; simpl; [tauto|].
  destruct (QRCode_toDataURL u bulkOptions) eqn:E; simpl.
  - intros [<-|Hin]; [exact E|eauto].
  - eauto.
Qed.

Lemma produced_id (urlList : list jsstring) :
  forall d,
    map id (produced d urlList) =
    map (fun i => lit "qr-" ++ Number_toString (Math_random (d + i)))
        (seq 0 (List.length (successes urlList))).
Proof.
  unfold successes. induction urlList as [|u rest IH]; intros d; simpl.
  - reflexivity.
  - unfold succeeded at 1.
    destruct (QRCode_toDataURL u bulkOptions); simpl.
    + rewrite Nat.add_0_r. f_equal. rewrite IH, <- seq_shift, map_map.
      apply map_ext. intros i. now rewrite Nat.add_succ_comm.
    + apply IH.
Qed.

Lemma forOfCalls_codec (urlList : list jsstring) :
  codecCalls (forOfCalls urlList)
  = map (fun u => Ev_toDataURL u bulkOptions) urlList.
Proof.
  unfold codecCalls. induction urlList as [|u rest IH]; simpl; [reflexivity|].
  destruct (QRCode_toDataURL u bulkOptions); simpl; now rewrite IH.
Qed.

(** A run of [generateBulk] on a non-empty batch. *)
Lemma generateBulk_run (r : Run State) :
  urlListOf (urls (view r)) <> [] ->
  generateBulk r =
  (tt,
   {| view := {| urls := urls (view r);
                 qrs := produced (draws r) (urlListOf (urls (view r)));
                 isLoading := false |};
      log := log r ++ forOfCalls (urlListOf (urls (view r)));
      draws := draws r
               + List.length (successes (urlListOf (urls (view r)))) |}).
Proof.
  intros Hne. unfold generateBulk, bind, getState.
  destruct (urlListOf (urls (view r))) as [|u rest] eqn:E; [congruence|].
  cbn [List.length Nat.eqb].
  unfold setIsLoading, setQrs, setState. rewrite forOf_run.
  reflexivity.
Qed.

(** A run of [generateBulk] on an empty batch changes nothing. *)
Lemma generateBulk_empty (r : Run State) :
  urlListOf (urls (view r)) = [] -> generateBulk r = (tt, r).
Proof.
  intros E. unfold generateBulk, bind, getState. now rewrite E.
Qed.

End BulkFacts.

(** *** The batch encode orchestrator *)

(** C1 (amended).  For a batch of N >= 1 trimmed, non-empty lines of which K
    encode, [generateBulk] completes and leaves a result list of length K
    whose source texts are, in order, the lines that encoded: each one is a
    line of the batch and carries the image the codec gave for it.  A failing
    line only adds a logged error. *)
Theorem generateBulk_results `{QRCodeLib} `{Engine} (r : Run State) :
  let urlList := urlListOf (urls (view r)) in
  let r' := exec generateBulk r in
  urlList <> [] ->
  (forall line, In line urlList -> trim line = line /\ line <> []) /\
  List.length (qrs (view r')) = List.length (successes urlList) /\
  Forall (fun qr => In (url qr) urlList
                    /\ QRCode_toDataURL (url qr) bulkOptions
                       = Resolved (dataUrl qr))
         (qrs (view r')) /\
  map url (qrs (view r')) = successes urlList /\
  isLoading (view r') = false /\
  codecCalls (callsOf generateBulk r)
  = map (fun u => Ev_toDataURL u bulkOptions) urlList.
Proof.
  intros urlList r' Hne. subst r'. unfold callsOf, exec.
  rewrite (generateBulk_run r Hne). cbn [snd view log qrs isLoading].
  fold urlList. repeat split.
  - now apply (urlListOf_lines (urls (view r))).
  - now apply (urlListOf_lines (urls (view r))).
  - apply produced_length.
  - apply Forall_forall. intros qr Hin. split.
    + assert (Hs : In (url qr) (successes urlList)).
      { rewrite <- (produced_url urlList (draws r)). now apply in_map. }
      unfold successes in Hs. now apply filter_In in Hs.
    + now apply (produced_dataUrl urlList (draws r)).
  - apply produced_url.
  - rewrite skipn_app_exact. apply forOfCalls_codec.
Qed.

Lemma generateBulk_results_witness :
  let r := {| view := {| urls := lit "ab" ++ [10%N] ++ lit " toolong" ++ [10%N] ++ lit "cd "; qrs := []; isLoading := false |};
              log := []; draws := 0 |} in
  urlListOf (urls (view r)) = [lit "ab"; lit "toolong"; lit "cd"] /\
  map url (qrs (view (exec (@generateBulk Sample.qrcode Sample.counting) r)))
  = [lit "ab"; lit "cd"].
Proof.
  split; [reflexivity|].
  apply (@generateBulk_results Sample.qrcode Sample.counting).
  vm_compute. discriminate.
Defined.

(** C1 as stated fails for the empty batch: N = K = 0, and the result list
    of the previous run is still there. *)
Lemma generateBulk_empty_batch_keeps_results :
  let old := {| id := lit "qr-0.1"; url := lit "ab";
                dataUrl := lit "data:image/png;base64,ab" |} in
  let r := {| view := {| urls := lit "  "; qrs := [old]; isLoading := false |};
              log := []; draws := 1 |} in
  let r' := exec (@generateBulk Sample.qrcode Sample.counting) r in
  urlListOf (urls (view r)) = [] /\
  List.length (@successes Sample.qrcode (urlListOf (urls (view r)))) = 0 /\
  List.length (qrs (view r')) = 1 /\
  ~ Forall (fun qr => In (url qr) (urlListOf (urls (view r)))) (qrs (view r')).
Proof.
  repeat split. intros F. inversion F as [|? ? Hin]. exact Hin.
Qed.

(** C10 (amended).  The codec is called once per line, in the order of the
    lines, and the k-th line that encodes is the source of the k-th element
    of the result list.  For a non-empty batch the converse holds too: the
    k-th element of the result list comes from the k-th line that encodes.
    For the empty batch the result list is left as it was. *)
Theorem generateBulk_input_order `{QRCodeLib} `{Engine} (r : Run State) :
  let urlList := urlListOf (urls (view r)) in
  let r' := exec generateBulk r in
  codecCalls (callsOf generateBulk r)
  = map (fun u => Ev_toDataURL u bulkOptions) urlList /\
  (forall k line,
      nth_error (successes urlList) k = Some line ->
      exists qr, nth_error (qrs (view r')) k = Some qr
                 /\ url qr = line
                 /\ QRCode_toDataURL line bulkOptions = Resolved (dataUrl qr)) /\
  (urlList <> [] ->
   forall k qr, nth_error (qrs (view r')) k = Some qr ->
                nth_error (successes urlList) k = Some (url qr)) /\
  (urlList = [] -> qrs (view r') = qrs (view r)).
Proof.
  intros urlList r'. subst r'.
  destruct (list_eq_dec (list_eq_dec N.eq_dec) urlList []) as [E|Hne].
  - unfold callsOf, exec. rewrite (generateBulk_empty r E), E. cbn [snd].
    rewrite <- (app_nil_r (log r)) at 2. rewrite skipn_app_exact.
    split; [reflexivity|split; [|split]].
    + intros k line Hk. destruct k; discriminate.
    + intros Hne. now elim Hne.
    + reflexivity.
  - unfold callsOf, exec. rewrite (generateBulk_run r Hne).
    cbn [snd view log qrs]. fold urlList.
    rewrite skipn_app_exact, forOfCalls_codec.
    split; [reflexivity|split; [|split]].
    + intros k line Hk.
      rewrite <- (produced_url urlList (draws r)), nth_error_map in Hk.
      destruct (nth_error (produced (draws r) urlList) k) as [qr|] eqn:Eq;
        [|discriminate].
      injection Hk as <-. exists qr. repeat split.
      apply nth_error_In in Eq. now apply (produced_dataUrl urlList (draws r)).
    + intros _ k qr Hk.
      rewrite <- (produced_url urlList (draws r)), nth_error_map.
      now rewrite Hk.
    + intros E. contradiction.
Qed.

Lemma generateBulk_input_order_witness :
  let r := {| view := {| urls := lit "ab" ++ [10%N] ++ lit " toolong"
                                 ++ [10%N] ++ lit "cd ";
                         qrs := []; isLoading := false |};
              log := []; draws := 0 |} in
  let r' := exec (@generateBulk Sample.qrcode Sample.counting) r in
  nth_error (@successes Sample.qrcode (urlListOf (urls (view r)))) 1
  = Some (lit "cd") /\
  exists qr, nth_error (qrs (view r')) 1 = Some qr
             /\ url qr = lit "cd"
             /\ Sample.toDataURL (lit "cd") bulkOptions = Resolved (dataUrl qr).
Proof.
  split; [reflexivity|].
  apply (proj1 (proj2 (@generateBulk_input_order Sample.qrcode Sample.counting _))).
  reflexivity.
Defined.

(** C10 as stated fails for the empty batch: the result list of the
    previous run still has a first element, and no line encodes. *)
Lemma generateBulk_order_stale_results :
  let old := {| id := lit "qr-0.1"; url := lit "ab";
                dataUrl := lit "data:image/png;base64,AAAA" |} in
  let r := {| view := {| urls := lit "  "; qrs := [old]; isLoading := false |};
              log := []; draws := 1 |} in
  let r' := exec (@generateBulk Sample.qrcode Sample.counting) r in
  nth_error (qrs (view r')) 0 = Some old /\
  nth_error (@successes Sample.qrcode (urlListOf (urls (view r)))) 0 = None.
Proof. split; reflexivity. Qed.

(** C8 (amended).  For a non-empty batch the ids of the result list are
    [qr-] followed by the prints of the numbers drawn for the successes, in
    order; they are pairwise distinct whenever those prints are. *)
Theorem generateBulk_ids `{QRCodeLib} `{Engine} (r : Run State) :
  let urlList := urlListOf (urls (view r)) in
  let K := List.length (successes urlList) in
  let r' := exec generateBulk r in
  urlList <> [] ->
  map id (qrs (view r'))
  = map (fun i => lit "qr-" ++ Number_toString (Math_random (draws r + i)))
        (seq 0 K) /\
  ((forall i j, i < K -> j < K ->
                Number_toString (Math_random (draws r + i))
                = Number_toString (Math_random (draws r + j)) -> i = j) ->
   NoDup (map id (qrs (view r')))).
Proof.
  intros urlList K r' Hne. subst r'. unfold exec.
  rewrite (generateBulk_run r Hne). cbn [snd view qrs]. fold urlList.
  rewrite produced_id. fold K. split; [reflexivity|].
  intros Hinj. apply NoDup_map_NoDup_ForallPairs; [|apply seq_NoDup].
  intros i j Hi Hj E. apply in_seq in Hi, Hj.
  apply app_inv_head in E. apply Hinj; [lia|lia|exact E].
Qed.

Lemma generateBulk_ids_witness :
  let r := {| view := {| urls := lit "ab" ++ [10%N] ++ lit "cd";
                         qrs := []; isLoading := false |};
              log := []; draws := 0 |} in
  urlListOf (urls (view r)) <> [] /\
  NoDup (map id (qrs (view (exec (@generateBulk Sample.qrcode Sample.counting) r)))).
Proof.
  split; [vm_compute; discriminate|].
  apply (@generateBulk_ids Sample.qrcode Sample.counting);
    [vm_compute; discriminate|].
  intros i j Hi Hj. change (i < 2) in Hi. change (j < 2) in Hj.
  destruct i as [|[|i]], j as [|[|j]]; try lia; vm_compute; intros E;
    try reflexivity; discriminate E.
Defined.

(** C8 as stated fails when the random source repeats a number: two results
    of one batch then carry the same id. *)
Lemma generateBulk_equal_ids :
  let r := {| view := {| urls := lit "ab" ++ [10%N] ++ lit "cd";
                         qrs := []; isLoading := false |};
              log := []; draws := 0 |} in
  map id (qrs (view (exec (@generateBulk Sample.qrcode Sample.repeating) r)))
  = [lit "qr-0.5"; lit "qr-0.5"] /\
  ~ NoDup (map id (qrs (view (exec (@generateBulk Sample.qrcode Sample.repeating) r)))).
Proof.
  split; [reflexivity|].
  intros ND. vm_compute in ND. inversion ND as [|? ? Hnotin _].
  apply Hnotin. now left.
Qed.

(** *** The empty batch *)

Import ScannerView.

(** C6 (amended).  On an empty input both orchestrators return at once: no
    codec call is made, nothing is logged and the state of the view is left
    as it was, the result list of the previous run included. *)
Theorem empty_input_is_noop `{QRCodeLib} `{Engine} `{Html5QrcodeLib} :
  (forall r : Run BulkGeneratorView.State,
      urlListOf (urls (view r)) = [] ->
      generateBulk r = (tt, r)
      /\ codecCalls (callsOf generateBulk r) = []
      /\ qrs (view (exec generateBulk r)) = qrs (view r)) /\
  (forall (files : option (list File)) (r : Run ScannerView.State),
      files = None \/ files = Some [] ->
      handleFileChange files r = (tt, r)
      /\ codecCalls (callsOf (handleFileChange files) r) = []
      /\ scanResults (view (exec (handleFileChange files) r))
         = scanResults (view r)).
Proof.
  split.
  - intros r E. pose proof (generateBulk_empty r E) as G.
    assert (X : exec generateBulk r = r) by (unfold exec; now rewrite G).
    rewrite (callsOf_unchanged _ _ X), X. now repeat split.
  - intros files r Hf.
    assert (G : handleFileChange files r = (tt, r))
      by (destruct Hf; subst files; reflexivity).
    assert (X : exec (handleFileChange files) r = r)
      by (unfold exec; now rewrite G).
    rewrite (callsOf_unchanged _ _ X), X. now repeat split.
Qed.

Lemma empty_input_is_noop_witness :
  let r := {| view := {| urls := lit "  " ++ [10%N]; qrs := [];
                         isLoading := false |};
              log := []; draws := 0 |} in
  let r2 := {| view := {| scanResults := []; isScanning := false;
                          isProcessingFile := false; scannerRef := None |};
               log := []; draws := 0 |} in
  urlListOf (urls (view r)) = [] /\
  @generateBulk Sample.qrcode Sample.counting r = (tt, r) /\
  @handleFileChange Sample.decoder (Some []) r2 = (tt, r2).
Proof.
  split; [reflexivity|split].
  - apply (proj1 (@empty_input_is_noop Sample.qrcode Sample.counting
                    Sample.decoder)).
    reflexivity.
  - apply (proj2 (@empty_input_is_noop Sample.qrcode Sample.counting
                    Sample.decoder)).
    now right.
Defined.

(** C6 as stated fails when a previous run left results: after the run on the
    empty input the result list is not empty. *)
Lemma empty_input_keeps_previous_results :
  let old := {| id := lit "qr-0.1"; url := lit "ab";
                dataUrl := lit "data:image/png;base64,ab" |} in
  let r := {| view := {| urls := lit "  "; qrs := [old]; isLoading := false |};
              log := []; draws := 1 |} in
  let found := {| fileName := lit "a.png"; decodedText := lit "ab" |} in
  let r2 := {| view := {| scanResults := [found]; isScanning := false;
                          isProcessingFile := false; scannerRef := None |};
               log := []; draws := 0 |} in
  urlListOf (urls (view r)) = [] /\
  qrs (view (exec (@generateBulk Sample.qrcode Sample.counting) r)) = [old] /\
  scanResults (view (exec (@handleFileChange Sample.decoder (Some [])) r2))
  = [found] /\
  scanResults (view (exec (@handleFileChange Sample.decoder None) r2))
  = [found].
Proof. repeat split. Qed.

(** *** Uploaded files *)

(** C2.  A list of more than 10 files is rejected as a whole: the only calls
    are the notice that at most 10 files can be uploaded and the reset of the
    file input; no decode is attempted and the state of the view is left as
    it was. *)
Theorem handleFileChange_too_many `{Html5QrcodeLib}
        (files : list File) (r : Run ScannerView.State) :
  10 < List.length files ->
  callsOf (handleFileChange (Some files)) r
  = [Ev_alert tooManyFilesNotice; Ev_clearInput] /\
  codecCalls (callsOf (handleFileChange (Some files)) r) = [] /\
  view (exec (handleFileChange (Some files)) r) = view r.
Proof.
  intros Hlen.
  assert (G : handleFileChange (Some files) r =
              (tt, {| view := view r;
                      log := log r ++ [Ev_alert tooManyFilesNotice; Ev_clearInput];
                      draws := draws r |})).
  { unfold handleFileChange.
    destruct (Nat.eqb_spec (List.length files) 0) as [E|_]; [lia|].
    destruct (Nat.ltb_spec 10 (List.length files)) as [_|E]; [|lia].
    unfold bind, alert, emit. cbn [view log draws].
    now rewrite <- app_assoc. }
  assert (C : callsOf (handleFileChange (Some files)) r
              = [Ev_alert tooManyFilesNotice; Ev_clearInput]).
  { apply callsOf_appended. unfold exec. now rewrite G. }
  rewrite C. unfold exec. rewrite G. now repeat split.
Qed.

Lemma handleFileChange_too_many_witness :
  let f := {| file_name := lit "a.png"; file_bytes := [1; 97]%N |} in
  let files := repeat f 11 in
  let r := {| view := {| scanResults := []; isScanning := false;
                         isProcessingFile := false; scannerRef := None |};
              log := []; draws := 0 |} in
  10 < List.length files /\
  callsOf (@handleFileChange Sample.decoder (Some files)) r
  = [Ev_alert tooManyFilesNotice; Ev_clearInput].
Proof.
  split; [simpl; lia|].
  apply (@handleFileChange_too_many Sample.decoder). simpl. lia.
Defined.

(** *** Live capture *)

Lemma stopScan_active (r : Run ScannerView.State) :
  sessionActive (view r) = true ->
  stopScan r = (tt, {| view := view r; log := log r ++ [Ev_scannerStop];
                       draws := draws r |}).
Proof.
  unfold sessionActive, stopScan, bind, getState. cbn [fst snd].
  destruct (scannerRef (view r)) as [scanner|]; [|discriminate].
  now intros ->.
Qed.

Lemma stopScan_inactive (r : Run ScannerView.State) :
  sessionActive (view r) = false -> stopScan r = (tt, r).
Proof.
  unfold sessionActive, stopScan, bind, getState. cbn [fst snd].
  destruct (scannerRef (view r)) as [scanner|]; [|reflexivity].
  now intros ->.
Qed.




(** C9.  With no active session [stopScan] does nothing: it returns normally,
    calls nothing and leaves the state as it was. *)
Theorem stopScan_noop (r : Run ScannerView.State) :
  sessionActive (view r) = false ->
  stopScan r = (tt, r) /\ callsOf stopScan r = [] /\ exec stopScan r = r.
Proof.
  intros Hidle. pose proof (stopScan_inactive r Hidle) as G.
  assert (X : exec stopScan r = r) by (unfold exec; now rewrite G).
  rewrite (callsOf_unchanged _ _ X). now repeat split.
Qed.

Lemma stopScan_noop_witness :
  let idle := {| view := {| scanResults := []; isScanning := false;
                            isProcessingFile := false; scannerRef := None |};
                 log := []; draws := 0 |} in
  let starting := exec (startScan (Resolved (Some [lit "Back camera"]))) idle in
  sessionActive (view idle) = false /\ stopScan idle = (tt, idle) /\
  sessionActive (view starting) = false /\ stopScan starting = (tt, starting).
Proof.
  split; [reflexivity|split; [|split; [reflexivity|]]].
  - apply (stopScan_noop _). reflexivity.
  - apply (stopScan_noop _). reflexivity.
Defined.

(** *** The result classifier *)

Lemma eqb_eq (s t : jsstring) : JS.eqb s t = true <-> s = t.
Proof.
  revert t. induction s as [|a s IH]; intros [|b t]; simpl;
    try (split; [discriminate|congruence]); [tauto|].
  rewrite andb_true_iff, N.eqb_eq, IH. split.
  - now intros [-> ->].
  - intros E. injection E as -> ->. now split.
Qed.

Section ClassifierFacts.
Context `{Engine}.

Lemma isSafeUrl_iff (text : jsstring) :
  isSafeUrl text = true <->
  exists sch, parsesWithScheme text sch /\ In sch allowedSchemes.
Proof.
  unfold isSafeUrl, parsesWithScheme. split.
  - destruct (URL_new text) as [u|]; [|discriminate].
    intros E. apply existsb_exists in E. destruct E as [p [Hp E]].
    apply eqb_eq in E. exists (scheme u). split; [now exists u|].
    unfold protocol in E. subst p. unfold allowedSchemes.
    simpl in Hp. simpl.
    repeat (destruct Hp as [Hp|Hp];
            [change (scheme u ++ lit ":") with (scheme u ++ [58%N]) in Hp;
             match type of Hp with
             | lit ?s = _ =>
                 let p := eval vm_compute in (removelast (lit s)) in
                 change (lit s) with (p ++ [58%N]) in Hp
             end;
             apply app_inv_tail in Hp; subst; simpl; tauto|]).
    contradiction.
  - intros [sch [[u [-> <-]] Hin]].
    apply existsb_exists. exists (protocol u). split; [|now apply eqb_eq].
    unfold protocol. simpl in Hin.
    repeat (destruct Hin as [<-|Hin]; [simpl; tauto|]). contradiction.
Qed.

End ClassifierFacts.

(** C4.  A text is classified as a link exactly when it parses as a URL
    whose scheme is [https], [http], [mailto] or [tel]; otherwise, and in
    particular when parsing fails, it is plain text.  With the URLs parsed as
    browsers parse them, [https://x.com] and [tel:+123] are links and
    [ftp://x.com] and [hello world] are plain text. *)
Theorem isSafeUrl_classification `{Engine} :
  (forall text,
      classify text = Link <->
      exists sch, parsesWithScheme text sch /\ In sch allowedSchemes) /\
  (forall text,
      classify text = PlainText <->
      ~ exists sch, parsesWithScheme text sch /\ In sch allowedSchemes) /\
  (forall text, URL_new text = None -> classify text = PlainText) /\
  (parsesWithScheme (lit "https://x.com") (lit "https") ->
   classify (lit "https://x.com") = Link) /\
  (parsesWithScheme (lit "tel:+123") (lit "tel") ->
   classify (lit "tel:+123") = Link) /\
  (parsesWithScheme (lit "ftp://x.com") (lit "ftp") ->
   classify (lit "ftp://x.com") = PlainText) /\
  (URL_new (lit "hello world") = None ->
   classify (lit "hello world") = PlainText).
Proof.
  assert (L : forall text,
             classify text = Link <->
             exists sch, parsesWithScheme text sch /\ In sch allowedSchemes).
  { intros text. rewrite <- isSafeUrl_iff. unfold classify.
    destruct (isSafeUrl text); split; congruence. }
  assert (P : forall text,
             classify text = PlainText <->
             ~ exists sch, parsesWithScheme text sch /\ In sch allowedSchemes).
  { intros text. rewrite <- L. unfold classify.
    destruct (isSafeUrl text); split; congruence. }
  assert (F : forall text, URL_new text = None -> classify text = PlainText).
  { intros text E. unfold classify, isSafeUrl. now rewrite E. }
  repeat split; try apply L; try apply P; try apply F; auto.
  - intros Hp. apply L. exists (lit "https"). split; [exact Hp|simpl; tauto].
  - intros Hp. apply L. exists (lit "tel"). split; [exact Hp|simpl; tauto].
  - intros [u [Hu Hs]]. apply P. intros [sch [[u' [Hu' Hs']] Hin]].
    rewrite Hu in Hu'. injection Hu' as <-. rewrite Hs in Hs'. subst sch.
    simpl in Hin. repeat (destruct Hin as [Hin|Hin]; [discriminate Hin|]).
    contradiction.
Qed.

Lemma isSafeUrl_classification_witness :
  @parsesWithScheme Sample.counting (lit "https://x.com") (lit "https") /\
  @parsesWithScheme Sample.counting (lit "tel:+123") (lit "tel") /\
  @parsesWithScheme Sample.counting (lit "ftp://x.com") (lit "ftp") /\
  @URL_new Sample.counting (lit "hello world") = None /\
  @classify Sample.counting (lit "https://x.com") = Link /\
  @classify Sample.counting (lit "tel:+123") = Link /\
  @classify Sample.counting (lit "ftp://x.com") = PlainText /\
  @classify Sample.counting (lit "hello world") = PlainText.
Proof.
  assert (P1 : @parsesWithScheme Sample.counting (lit "https://x.com") (lit "https"))
    by (eexists; split; reflexivity).
  assert (P2 : @parsesWithScheme Sample.counting (lit "tel:+123") (lit "tel"))
    by (eexists; split; reflexivity).
  assert (P3 : @parsesWithScheme Sample.counting (lit "ftp://x.com") (lit "ftp"))
    by (eexists; split; reflexivity).
  assert (P4 : @URL_new Sample.counting (lit "hello world") = None)
    by reflexivity.
  pose proof (@isSafeUrl_classification Sample.counting)
    as [_ [_ [_ [T1 [T2 [T3 T4]]]]]].
  repeat split; auto.
Defined.

(** *** The archive exporter *)

Lemma eqb_refl (s : jsstring) : JS.eqb s s = true.
Proof. now apply eqb_eq. Qed.

Lemma eqb_neq (s t : jsstring) : s <> t -> JS.eqb s t = false.
Proof.
  intros Hne. destruct (JS.eqb s t) eqn:E; [|reflexivity].
  now apply eqb_eq in E.
Qed.

Lemma JSZip_file_names (name : jsstring) (data : option jsstring) (zip : Zip) :
  (In name (map fst zip) -> map fst (JSZip_file name data zip) = map fst zip) /\
  (~ In name (map fst zip) ->
   JSZip_file name data zip = zip ++ [(name, data)]).
Proof.
  induction zip as [|[n d] rest [IHin IHout]]; simpl.
  - split; [contradiction|reflexivity].
  - destruct (JS.eqb n name) eqn:E.
    + apply eqb_eq in E. subst n. split; [reflexivity|].
      intros Hout. exfalso. apply Hout. now left.
    + split.
      * intros [->|Hin]; [now rewrite eqb_refl in E|].
        simpl. now rewrite IHin.
      * intros Hout. rewrite IHout; [reflexivity|]. intros Hin. apply Hout.
        now right.
Qed.

Lemma JSZip_file_In (name : jsstring) (data : option jsstring) (zip : Zip)
      (m : jsstring) :
  In m (map fst (JSZip_file name data zip)) <-> m = name \/ In m (map fst zip).
Proof.
  destruct (in_dec (list_eq_dec N.eq_dec) name (map fst zip)) as [Hin|Hout].
  - rewrite (proj1 (JSZip_file_names name data zip) Hin).
    split; [tauto|]. intros [->|Hm]; assumption.
  - rewrite (proj2 (JSZip_file_names name data zip) Hout).
    rewrite map_app, in_app_iff. simpl. split.
    + intros [Hm|[<-|[]]]; tauto.
    + intros [->|Hm]; tauto.
Qed.

Lemma JSZip_file_NoDup (name : jsstring) (data : option jsstring) (zip : Zip) :
  NoDup (map fst zip) -> NoDup (map fst (JSZip_file name data zip)).
Proof.
  intros ND.
  destruct (in_dec (list_eq_dec N.eq_dec) name (map fst zip)) as [Hin|Hout].
  - now rewrite (proj1 (JSZip_file_names name data zip) Hin).
  - rewrite (proj2 (JSZip_file_names name data zip) Hout), map_app.
    simpl. apply NoDup_app; [assumption|repeat constructor; tauto|].
    intros x Hx [<-|[]]. contradiction.
Qed.

Lemma JSZip_file_length (name : jsstring) (data : option jsstring) (zip : Zip) :
  List.length (JSZip_file name data zip) <= S (List.length zip).
Proof.
  induction zip as [|[n d] rest IH]; simpl; [lia|].
  destruct (JS.eqb n name); simpl; lia.
Qed.

Lemma JSZip_lookup_file (name m : jsstring) (data : option jsstring) (zip : Zip) :
  JSZip_lookup m (JSZip_file name data zip)
  = if JS.eqb name m then Some data else JSZip_lookup m zip.
Proof.
  induction zip as [|[n d] rest IH]; simpl.
  - reflexivity.
  - destruct (JS.eqb n name) eqn:E; simpl.
    + apply eqb_eq in E. subst n. now destruct (JS.eqb name m).
    + rewrite IH. destruct (JS.eqb n m) eqn:E2; [|reflexivity].
      apply eqb_eq in E2. subst n. rewrite eqb_neq; [reflexivity|].
      intros ->. now rewrite eqb_refl in E.
Qed.

Section ExportFacts.
Context `{Engine}.

Lemma forEach_names (results : list GeneratedQR) :
  forall index zip m,
    In m (map fst (forEach results index zip))
    <-> In m (map fst zip) \/ In m (entryNames results index).
Proof.
  induction results as [|qr rest IH]; intros index zip m;
    cbn [forEach entryNames In].
  - tauto.
  - rewrite IH, JSZip_file_In. intuition congruence.
Qed.

Lemma forEach_NoDup (results : list GeneratedQR) :
  forall index zip,
    NoDup (map fst zip) -> NoDup (map fst (forEach results index zip)).
Proof.
  induction results as [|qr rest IH]; intros index zip ND; cbn [forEach].
  - exact ND.
  - apply IH. now apply JSZip_file_NoDup.
Qed.

Lemma forEach_length (results : list GeneratedQR) :
  forall index zip,
    List.length (forEach results index zip)
    <= List.length zip + List.length results.
Proof.
  induction results as [|qr rest IH]; intros index zip;
    cbn [forEach List.length]; [lia|].
  etransitivity; [apply IH|].
  pose proof (JSZip_file_length
                (BulkGeneratorView.fileName qr index ++ lit ".png")
                (nth_error (split 44%N (dataUrl qr)) 1) zip).
  lia.
Qed.

(** Without collisions the entries are those of the results, in order. *)
Lemma NoDup_app_cons_move {A} (l1 l2 : list A) (a : A) :
  NoDup (l1 ++ a :: l2) -> NoDup ((l1 ++ [a]) ++ l2).
Proof. now rewrite <- app_assoc. Qed.

Lemma forEach_distinct (results : list GeneratedQR) :
  forall index zip,
    NoDup (map fst zip ++ entryNames results index) ->
    map fst (forEach results index zip)
    = map fst zip ++ entryNames results index.
Proof.
  induction results as [|qr rest IH]; intros index zip ND;
    cbn [forEach entryNames] in *.
  - now rewrite app_nil_r.
  - set (name := BulkGeneratorView.fileName qr index ++ lit ".png") in *.
    set (data := nth_error (split 44%N (dataUrl qr)) 1).
    assert (Hout : ~ In name (map fst zip)).
    { intros Hin. apply NoDup_remove_2 in ND. apply ND.
      apply in_or_app. now left. }
    rewrite (proj2 (JSZip_file_names name data zip) Hout).
    rewrite IH; rewrite map_app; cbn [map fst].
    + now rewrite <- app_assoc.
    + now apply NoDup_app_cons_move.
Qed.

(** An entry holds the image of the last result that derived its name. *)
Lemma forEach_lookup_later (results : list GeneratedQR) :
  forall index zip m,
    ~ In m (entryNames results index) ->
    JSZip_lookup m (forEach results index zip) = JSZip_lookup m zip.
Proof.
  induction results as [|qr rest IH]; intros index zip m Hout;
    cbn [forEach entryNames] in *.
  - reflexivity.
  - rewrite IH by (intros Hin; apply Hout; now right).
    rewrite JSZip_lookup_file.
    rewrite eqb_neq; [reflexivity|]. intros E. apply Hout. now left.
Qed.

Lemma forEach_lookup_last (results : list GeneratedQR) :
  forall index zip k qr,
    nth_error results k = Some qr ->
    ~ In (BulkGeneratorView.fileName qr (index + k) ++ lit ".png")
         (entryNames (skipn (S k) results) (index + S k)) ->
    JSZip_lookup (BulkGeneratorView.fileName qr (index + k) ++ lit ".png")
                 (forEach results index zip)
    = Some (nth_error (split 44%N (dataUrl qr)) 1).
Proof.
  induction results as [|q rest IH]; intros index zip k qr Hk Hlast.
  - destruct k; discriminate.
  - destruct k as [|k]; cbn [nth_error] in Hk; cbn [skipn] in Hlast;
      cbn [forEach].
    + injection Hk as ->. rewrite Nat.add_0_r in *.
      rewrite Nat.add_1_r in Hlast.
      rewrite forEach_lookup_later by exact Hlast.
      rewrite JSZip_lookup_file. now rewrite eqb_refl.
    + replace (index + S k) with (S index + k) in * by lia.
      replace (index + S (S k)) with (S index + S k) in Hlast by lia.
      apply IH; assumption.
Qed.

End ExportFacts.

Lemma entryNames_length `{Engine} (results : list GeneratedQR) :
  forall index, List.length (entryNames results index) = List.length results.
Proof.
  induction results as [|qr rest IH]; intros index; cbn [entryNames List.length];
    [reflexivity|now rewrite IH].
Qed.

(** [downloadZip] and the settlement of [generateAsync], as one run. *)
Lemma downloadZip_settled_run `{Engine} `{JSZipLib}
      (now : N) (r : Run BulkGeneratorView.State) :
  downloadZip_settled now r =
  (tt,
   {| view := view r;
      log := log r ++
             Ev_generateAsync (forEach (qrs (view r)) 0 []) ::
             match JSZip_failure (forEach (qrs (view r)) 0 []) with
             | None =>
                 [Ev_saveAs {| archived := forEach (qrs (view r)) 0 [] |}
                            (lit "qrcodes_"
                             ++ lit (NilEmpty.string_of_uint (N.to_uint now))
                             ++ lit ".zip")]
             | Some _ => []
             end;
      draws := draws r |}).
Proof.
  unfold downloadZip_settled, downloadZip, bind, getState, emit, ret,
    JSZip_generateAsync.
  cbn [view log draws].
  destruct (JSZip_failure (forEach (qrs (view r)) 0 [])).
  - reflexivity.
  - unfold generateAsync_then, emit. cbn [view log draws].
    now rewrite <- app_assoc.
Qed.

(** *** File names in the archive *)

Lemma entryNames_In `{Engine} (results : list GeneratedQR) :
  forall index name,
    In name (entryNames results index) <->
    exists k qr, nth_error results k = Some qr
                 /\ name = BulkGeneratorView.fileName qr (index + k) ++ lit ".png".
Proof.
  induction results as [|q rest IH]; intros index name; cbn [entryNames In].
  - split; [tauto|]. intros [k [qr [Hk _]]]. destruct k; discriminate.
  - rewrite IH. split.
    + intros [<-|[k [qr [Hk ->]]]].
      * exists 0, q. now rewrite Nat.add_0_r.
      * exists (S k), qr. split; [exact Hk|]. now rewrite Nat.add_succ_r.
    + intros [[|k] [qr [Hk ->]]]; cbn [nth_error] in Hk.
      * injection Hk as <-. left. now rewrite Nat.add_0_r.
      * right. exists k, qr. split; [exact Hk|]. now rewrite Nat.add_succ_r.
Qed.

(** [downloadZip] hands the file table built by the loop to [generateAsync]. *)
Lemma downloadZip_run `{Engine} `{JSZipLib} (r : Run BulkGeneratorView.State) :
  downloadZip r =
  (JSZip_generateAsync (forEach (qrs (view r)) 0 []),
   {| view := view r;
      log := log r ++ [Ev_generateAsync (forEach (qrs (view r)) 0 [])];
      draws := draws r |}).
Proof. reflexivity. Qed.

(** C3.  The file name derived for a result is its source text with every
    character outside [[a-zA-Z0-9]] replaced by ['_'], truncated to 50
    characters, and [qrcode_<index + 1>] when that is empty.  In the archive
    that [downloadZip] gives to [generateAsync] the entry names are exactly
    these names, followed by [.png], of the results at their positions: a
    result with the text [https://a.com/b?c=1] has the entry
    [https___a_com_b_c_1.png], and a third result whose sanitized name is
    empty has the entry [qrcode_3.png]. *)
Theorem fileName_derivation `{Engine} `{JSZipLib} :
  (forall qr index,
      BulkGeneratorView.fileName qr index
      = Spec.fileName (url qr) (index + 1)) /\
  (forall i d index,
      BulkGeneratorView.fileName
        {| id := i; url := lit "https://a.com/b?c=1"; dataUrl := d |} index
      = lit "https___a_com_b_c_1") /\
  (forall qr,
      firstn 50 (Spec.sanitize (url qr)) = [] ->
      BulkGeneratorView.fileName qr 2 = lit "qrcode_3") /\
  (forall r : Run BulkGeneratorView.State,
      let results := qrs (view r) in
      let zip := forEach results 0 [] in
      callsOf downloadZip r = [Ev_generateAsync zip] /\
      (forall name,
          In name (map fst zip) <->
          exists k qr, nth_error results k = Some qr
                       /\ name = Spec.fileName (url qr) (k + 1) ++ lit ".png") /\
      (forall k qr,
          nth_error results k = Some qr ->
          url qr = lit "https://a.com/b?c=1" ->
          In (lit "https___a_com_b_c_1.png") (map fst zip)) /\
      (forall qr,
          nth_error results 2 = Some qr ->
          firstn 50 (Spec.sanitize (url qr)) = [] ->
          In (lit "qrcode_3.png") (map fst zip))).
Proof.
  assert (E : forall qr index,
             BulkGeneratorView.fileName qr index
             = Spec.fileName (url qr) (index + 1)).
  { intros qr index.
    unfold BulkGeneratorView.fileName, Spec.fileName, orElse, slice0.
    rewrite replaceAll_sanitize.
    now destruct (firstn 50 (Spec.sanitize (url qr))). }
  split; [exact E|split; [|split]].
  - intros i d index. rewrite E. reflexivity.
  - intros qr Hempty. rewrite E. unfold Spec.fileName. now rewrite Hempty.
  - intros r results zip.
    assert (N : forall name,
               In name (map fst zip) <->
               exists k qr, nth_error results k = Some qr
                            /\ name = Spec.fileName (url qr) (k + 1)
                                      ++ lit ".png").
    { intros name. unfold zip. rewrite forEach_names, entryNames_In.
      cbn [map In]. split.
      - intros [[]|[k [qr [Hk ->]]]]. exists k, qr. now rewrite E.
      - intros [k [qr [Hk ->]]]. right. exists k, qr. now rewrite E. }
    split; [|split; [exact N|split]].
    + apply callsOf_appended. unfold exec. now rewrite downloadZip_run.
    + intros k qr Hk Hu. apply N. exists k, qr. split; [exact Hk|].
      rewrite Hu. reflexivity.
    + intros qr Hk Hempty. apply N. exists 2, qr. split; [exact Hk|].
      unfold Spec.fileName. now rewrite Hempty.
Qed.

Lemma fileName_derivation_witness :
  let q1 := {| id := lit "qr-0.1"; url := lit "https://a.com/b?c=1";
               dataUrl := lit "data:image/png;base64,AAAA" |} in
  let q2 := {| id := lit "qr-0.2"; url := lit "ab";
               dataUrl := lit "data:image/png;base64,BBBB" |} in
  let q3 := {| id := lit "qr-0.3"; url := [];
               dataUrl := lit "data:image/png;base64,CCCC" |} in
  let r := {| view := {| urls := []; qrs := [q1; q2; q3]; isLoading := false |};
              log := []; draws := 3 |} in
  let zip := @forEach Sample.counting (qrs (view r)) 0 [] in
  firstn 50 (Spec.sanitize (url q3)) = [] /\
  In (lit "https___a_com_b_c_1.png") (map fst zip) /\
  In (lit "qrcode_3.png") (map fst zip) /\
  map fst zip = [lit "https___a_com_b_c_1.png"; lit "ab.png"; lit "qrcode_3.png"].
Proof.
  intros q1 q2 q3 r zip.
  destruct (@fileName_derivation Sample.counting Sample.zipOk)
    as [_ [_ [_ X]]].
  destruct (X r) as [_ [_ [Hexample Hthird]]].
  split; [reflexivity|split; [|split; [|reflexivity]]].
  - exact (Hexample 0 q1 eq_refl eq_refl).
  - exact (Hthird q3 eq_refl eq_refl).
Defined.

(** C7 (amended).  [downloadZip] leaves the state of the view, its result
    list included, as it was.  The archive it builds has one entry per
    distinct derived name, each holding the image of the last result with
    that name; it has one entry per result exactly when the derived names
    are pairwise distinct, and the entries are then in the order of the
    results.  When generation succeeds the blob of that whole archive is
    handed once to [saveAs]; when it fails no archive is handed over. *)
Theorem downloadZip_export `{Engine} `{JSZipLib}
        (r : Run BulkGeneratorView.State) (now : N) :
  let results := qrs (view r) in
  let zip := forEach results 0 [] in
  let entryName qr k := BulkGeneratorView.fileName qr k ++ lit ".png" in
  view (exec (downloadZip_settled now) r) = view r /\
  (forall name, In name (map fst zip) <-> In name (entryNames results 0)) /\
  NoDup (map fst zip) /\
  List.length zip <= List.length results /\
  (forall k qr,
      nth_error results k = Some qr ->
      ~ In (entryName qr k) (entryNames (skipn (S k) results) (S k)) ->
      JSZip_lookup (entryName qr k) zip
      = Some (nth_error (split 44%N (dataUrl qr)) 1)) /\
  (NoDup (entryNames results 0) ->
   map fst zip = entryNames results 0
   /\ List.length zip = List.length results) /\
  (List.length zip = List.length results -> NoDup (entryNames results 0)) /\
  (JSZip_failure zip = None ->
   callsOf (downloadZip_settled now) r
   = [Ev_generateAsync zip;
      Ev_saveAs {| archived := zip |}
                (lit "qrcodes_"
                 ++ lit (NilEmpty.string_of_uint (N.to_uint now))
                 ++ lit ".zip")]) /\
  (forall err,
      JSZip_failure zip = Some err ->
      forall content name,
        ~ In (Ev_saveAs content name) (callsOf (downloadZip_settled now) r)).
Proof.
  intros results zip entryName.
  pose proof (downloadZip_settled_run now r) as G. fold results zip in G.
  assert (D : NoDup (entryNames results 0) ->
              map fst zip = entryNames results 0).
  { intros ND. apply (forEach_distinct results 0 []). exact ND. }
  assert (K : forall name,
             In name (map fst zip) <-> In name (entryNames results 0)).
  { intros name. unfold zip. rewrite forEach_names. simpl. tauto. }
  assert (U : NoDup (map fst zip)) by (apply forEach_NoDup; constructor).
  split; [unfold exec; now rewrite G|].
  split; [exact K|].
  split; [exact U|].
  split; [apply (forEach_length results 0 [])|].
  split; [intros k qr Hk Hlast;
          apply (forEach_lookup_last results 0 [] k qr Hk Hlast)|].
  split; [intros ND; split; [now apply D|]|].
  { rewrite <- (length_map fst zip), (D ND). apply entryNames_length. }
  split.
  { intros L. apply (NoDup_incl_NoDup U).
    - rewrite length_map, L, entryNames_length. apply Nat.le_refl.
    - intros name Hn. now apply K. }
  split.
  - intros Ok. apply callsOf_appended. unfold exec. rewrite G.
    cbn [snd log]. now rewrite Ok.
  - intros err Ko content name.
    rewrite (callsOf_appended (downloadZip_settled now) r
               [Ev_generateAsync zip]).
    + intros [Hf|[]]. discriminate.
    + unfold exec. rewrite G. cbn [snd log]. now rewrite Ko.
Qed.

Lemma downloadZip_export_witness :
  let q1 := {| id := lit "qr-0.1"; url := lit "ab";
               dataUrl := lit "data:image/png;base64,AAAA" |} in
  let q2 := {| id := lit "qr-0.2"; url := lit "cd";
               dataUrl := lit "data:image/png;base64,BBBB" |} in
  let broken := {| id := lit "qr-0.3"; url := lit "ef";
                   dataUrl := lit "data:image/png;base64,@@@" |} in
  let r := {| view := {| urls := []; qrs := [q1; q2]; isLoading := false |};
              log := []; draws := 2 |} in
  let r' := {| view := {| urls := []; qrs := [broken]; isLoading := false |};
               log := []; draws := 3 |} in
  let zip := @forEach Sample.counting [q1; q2] 0 [] in
  let zip' := @forEach Sample.counting [broken] 0 [] in
  NoDup (@entryNames Sample.counting [q1; q2] 0) /\
  @JSZip_failure Sample.zipOk zip = None /\
  zip = [(lit "ab.png", Some (lit "AAAA")); (lit "cd.png", Some (lit "BBBB"))] /\
  List.length zip = 2 /\
  callsOf (@downloadZip_settled Sample.counting Sample.zipOk 7%N) r
  = [Ev_generateAsync zip;
     Ev_saveAs {| archived := zip |} (lit "qrcodes_7.zip")] /\
  @JSZip_failure Sample.zipFails zip' = Some (lit "Invalid base64 input") /\
  ~ In (Ev_saveAs {| archived := zip' |} (lit "qrcodes_7.zip"))
       (callsOf (@downloadZip_settled Sample.counting Sample.zipFails 7%N) r').
Proof.
  intros q1 q2 broken r r' zip zip'.
  assert (ND : NoDup (@entryNames Sample.counting [q1; q2] 0)).
  { vm_compute. repeat constructor; simpl; intuition discriminate. }
  pose proof (@downloadZip_export Sample.counting Sample.zipOk r 7%N)
    as [_ [_ [_ [_ [_ [Hdistinct [_ [Hok _]]]]]]]].
  pose proof (@downloadZip_export Sample.counting Sample.zipFails r' 7%N)
    as [_ [_ [_ [_ [_ [_ [_ [_ Hko]]]]]]]].
  split; [exact ND|].
  split; [reflexivity|].
  split; [reflexivity|].
  split; [exact (proj2 (Hdistinct ND))|].
  split; [exact (Hok eq_refl)|].
  split; [reflexivity|].
  exact (Hko (lit "Invalid base64 input") eq_refl _ _).
Defined.

(** C7 as stated fails: two results whose derived names collide give an
    archive of one entry for two results, and that archive is the one
    delivered. *)
Lemma downloadZip_collision :
  let q1 := {| id := lit "qr-0.1"; url := lit "a.b";
               dataUrl := lit "data:image/png;base64,AAAA" |} in
  let q2 := {| id := lit "qr-0.2"; url := lit "a_b";
               dataUrl := lit "data:image/png;base64,BBBB" |} in
  let r := {| view := {| urls := []; qrs := [q1; q2]; isLoading := false |};
              log := []; draws := 2 |} in
  let zip := [(lit "a_b.png", Some (lit "BBBB"))] in
  callsOf (@downloadZip_settled Sample.counting Sample.zipOk 7%N) r
  = [Ev_generateAsync zip;
     Ev_saveAs {| archived := zip |} (lit "qrcodes_7.zip")] /\
  List.length zip <> List.length (qrs (view r)).
Proof. repeat split. simpl. lia. Qed.

(* ================================================================== *)
(** ** Further properties of the handlers *)
(* ================================================================== *)

(** *** Splitting and trimming *)

Lemma split_cons (sep : codeUnit) (s : jsstring) :
  exists piece pieces, split sep s = piece :: pieces.
Proof.
  induction s as [|c s [p [ps IH]]]; simpl.
  - now exists [], [].
  - destruct (N.eqb c sep); [now exists [], (split sep s)|].
    rewrite IH. now exists (c :: p), ps.
Qed.

Lemma split_app_sep (sep : codeUnit) (a b : jsstring) :
  split sep (a ++ sep :: b) = split sep a ++ split sep b.
Proof.
  induction a as [|c a IH]; simpl.
  - now rewrite N.eqb_refl.
  - destruct (N.eqb c sep); [now rewrite IH|].
    rewrite IH. destruct (split_cons sep a) as [p [ps ->]]. reflexivity.
Qed.

Lemma split_no_sep (sep : codeUnit) (s : jsstring) :
  ~ In sep s -> split sep s = [s].
Proof.
  induction s as [|c s IH]; simpl; [reflexivity|].
  intros Hout. destruct (N.eqb_spec c sep) as [->|_]; [tauto|].
  rewrite IH; tauto.
Qed.

Lemma split_pieces_no_sep (sep : codeUnit) (s piece : jsstring) :
  In piece (split sep s) -> ~ In sep piece.
Proof.
  revert piece. induction s as [|c s IH]; simpl; intros piece.
  - intros [<-|[]]. tauto.
  - destruct (N.eqb_spec c sep) as [->|Hne].
    + intros [<-|Hin]; [tauto|now apply IH].
    + destruct (split_cons sep s) as [p [ps E]]. rewrite E in *.
      intros [<-|Hin].
      * simpl. intros [->|Hp]; [congruence|].
        apply (IH p); [now left|assumption].
      * apply IH. now right.
Qed.

Lemma forallb_split (f : codeUnit -> bool) (sep : codeUnit) (s : jsstring) :
  f sep = true ->
  forallb f s = forallb (forallb f) (split sep s).
Proof.
  intros Hsep. induction s as [|c s IH]; simpl; [reflexivity|].
  destruct (N.eqb_spec c sep) as [->|_].
  - simpl. now rewrite Hsep, IH.
  - destruct (split_cons sep s) as [p [ps E]]. rewrite E in *.
    simpl in *. rewrite IH. now rewrite andb_assoc.
Qed.

Lemma forallb_trimStart (s : jsstring) :
  forallb isWhiteSpace (trimStart s) = forallb isWhiteSpace s.
Proof.
  induction s as [|c s IH]; simpl; [reflexivity|].
  destruct (isWhiteSpace c) eqn:E; simpl; [exact IH|now rewrite E].
Qed.

Lemma trimStart_nil_iff (s : jsstring) :
  trimStart s = [] <-> forallb isWhiteSpace s = true.
Proof.
  induction s as [|c s IH]; simpl; [tauto|].
  destruct (isWhiteSpace c); simpl; [exact IH|].
  split; discriminate.
Qed.

Lemma forallb_rev {A} (f : A -> bool) (l : list A) :
  forallb f (rev l) = forallb f l.
Proof.
  induction l as [|a l IH]; simpl; [reflexivity|].
  rewrite forallb_app, IH. simpl. rewrite andb_true_r. apply andb_comm.
Qed.

(** A string trims to the empty string exactly when it is all white space. *)
Lemma trim_nil_iff (s : jsstring) :
  trim s = [] <-> forallb isWhiteSpace s = true.
Proof.
  unfold trim, trimEnd.
  rewrite <- forallb_trimStart, <- (forallb_rev _ (trimStart s)).
  rewrite <- trimStart_nil_iff. split.
  - intros E. apply (f_equal (@rev _)) in E.
    now rewrite rev_involutive in E.
  - now intros ->.
Qed.

Lemma trimStart_In (c : codeUnit) (s : jsstring) :
  In c (trimStart s) -> In c s.
Proof.
  destruct (trimStart_suffix s) as [p Hp]. intros Hin. rewrite Hp.
  apply in_or_app. now right.
Qed.

Lemma trim_In (c : codeUnit) (s : jsstring) : In c (trim s) -> In c s.
Proof.
  unfold trim, trimEnd. rewrite <- in_rev. intros Hin.
  apply trimStart_In in Hin. rewrite <- in_rev in Hin.
  now apply trimStart_In.
Qed.

(** A string that [trimStart] leaves alone does not start with white space. *)
Lemma trimStart_fixed_head (c : codeUnit) (s : jsstring) :
  trimStart (c :: s) = c :: s -> isWhiteSpace c = false.
Proof.
  simpl. destruct (isWhiteSpace c); [|reflexivity].
  intros E. destruct (trimStart_suffix s) as [p Hp].
  apply (f_equal (@List.length _)) in E. rewrite Hp in E at 2.
  simpl in E. rewrite length_app in E. lia.
Qed.

Lemma urlListOf_nil_iff (text : jsstring) :
  urlListOf text = [] <-> forallb isWhiteSpace text = true.
Proof.
  rewrite (forallb_split isWhiteSpace 10%N text eq_refl).
  unfold urlListOf. generalize (split 10%N text). intros pieces.
  induction pieces as [|p ps IH]; simpl; [tauto|].
  destruct (truthy (trim p)) eqn:T.
  - apply truthy_nonempty in T.
    destruct (forallb isWhiteSpace p) eqn:W.
    + apply trim_nil_iff in W. contradiction.
    + simpl. split; discriminate.
  - assert (E : trim p = []) by (destruct (trim p); [reflexivity|discriminate]).
    apply trim_nil_iff in E. rewrite E. exact IH.
Qed.

(** *** The batch of lines *)

(** X1.  The batch of two texts joined by a line feed is the batch of the
    first followed by the batch of the second. *)
Theorem urlListOf_newline (a b : jsstring) :
  urlListOf (a ++ 10%N :: b) = urlListOf a ++ urlListOf b.
Proof.
  unfold urlListOf. now rewrite split_app_sep, map_app, filter_app.
Qed.

(** X2.  A line of the batch contains no line feed, starts with a code unit
    that is not white space and ends with one. *)
Theorem urlListOf_line_shape (text line : jsstring) :
  In line (urlListOf text) ->
  ~ In 10%N line /\
  (exists c rest, line = c :: rest /\ isWhiteSpace c = false) /\
  (exists init c, line = init ++ [c] /\ isWhiteSpace c = false).
Proof.
  unfold urlListOf. rewrite filter_In, in_map_iff.
  intros [[raw [<- Hraw]] T]. apply truthy_nonempty in T.
  split; [|split].
  - intros Hin. apply trim_In in Hin.
    now apply (split_pieces_no_sep 10%N text raw).
  - pose proof (trimStart_trimEnd raw) as E. fold (trim raw) in E.
    destruct (trim raw) as [|c rest]; [congruence|].
    exists c, rest. split; [reflexivity|].
    now apply (trimStart_fixed_head c rest).
  - pose proof (trimEnd_idem (trimStart raw)) as E. fold (trim raw) in E.
    unfold trimEnd in E at 1. apply (f_equal (@rev _)) in E.
    rewrite rev_involutive in E.
    destruct (rev (trim raw)) as [|c t] eqn:R.
    + apply (f_equal (@rev _)) in R. rewrite rev_involutive in R.
      simpl in R. congruence.
    + exists (rev t), c. split.
      * apply (f_equal (@rev _)) in R. now rewrite rev_involutive in R.
      * now apply (trimStart_fixed_head c t).
Qed.

Lemma urlListOf_line_shape_witness :
  In (lit "cd") (urlListOf (lit "ab" ++ [10%N] ++ lit " cd ")) /\
  ~ In 10%N (lit "cd").
Proof.
  assert (Hin : In (lit "cd") (urlListOf (lit "ab" ++ [10%N] ++ lit " cd ")))
    by (vm_compute; tauto).
  split; [exact Hin|].
  exact (proj1 (urlListOf_line_shape _ _ Hin)).
Defined.

(** *** More on the batch encode orchestrator *)

Section BulkMore.
Context `{QRCodeLib} `{Engine}.

(** The calls of a run of [generateBulk], empty batch included. *)
Lemma generateBulk_calls (r : Run BulkGeneratorView.State) :
  callsOf generateBulk r = forOfCalls (urlListOf (urls (view r))).
Proof.
  destruct (urlListOf (urls (view r))) as [|u rest] eqn:E.
  - apply callsOf_unchanged. unfold exec. now rewrite generateBulk_empty.
  - apply callsOf_appended. unfold exec.
    rewrite generateBulk_run by congruence. now rewrite E.
Qed.

Lemma forOfCalls_In (urlList : list jsstring) (e : Event) :
  In e (forOfCalls urlList) <->
  exists u, In u urlList /\
            (e = Ev_toDataURL u bulkOptions \/
             exists err, QRCode_toDataURL u bulkOptions = Rejected err
                         /\ e = Ev_consoleError
                                  (lit "Failed to generate QR for " ++ u) err).
Proof.
  induction urlList as [|u rest IH]; cbn [forOfCalls In].
  - split; [tauto|]. intros [u [[] _]].
  - destruct (QRCode_toDataURL u bulkOptions) as [d|err0] eqn:E;
      cbn [In]; rewrite IH; split.
    + intros [<-|[v [Hv Hc]]]; [exists u; tauto|exists v; tauto].
    + intros [v [[<-|Hv] [->|[err [Herr ->]]]]].
      * now left.
      * congruence.
      * right. exists v. tauto.
      * right. exists v. split; [assumption|]. right. now exists err.
    + intros [<-|[<-|[v [Hv Hc]]]].
      * exists u. tauto.
      * exists u. split; [now left|]. right. now exists err0.
      * exists v. tauto.
    + intros [v [[<-|Hv] [->|[err [Herr ->]]]]].
      * now left.
      * right. left. congruence.
      * right. right. exists v. tauto.
      * right. right. exists v. split; [assumption|]. right. now exists err.
Qed.

Lemma forOfCalls_length (urlList : list jsstring) :
  List.length (forOfCalls urlList) + List.length (successes urlList)
  = 2 * List.length urlList.
Proof.
  unfold successes. induction urlList as [|u rest IH]; cbn [forOfCalls filter].
  - reflexivity.
  - unfold succeeded at 1.
    destruct (QRCode_toDataURL u bulkOptions); cbn [List.length]; lia.
Qed.

End BulkMore.

(** X3.  [generateBulk] calls the codec exactly when the text has a code
    unit that is not white space: on a text of white space only, however
    long, it makes no codec call. *)
Theorem generateBulk_codec_called_iff `{QRCodeLib} `{Engine}
        (r : Run BulkGeneratorView.State) :
  codecCalls (callsOf generateBulk r) = []
  <-> forallb isWhiteSpace (urls (view r)) = true.
Proof.
  rewrite <- urlListOf_nil_iff, generateBulk_calls, forOfCalls_codec.
  destruct (urlListOf (urls (view r))); simpl; split; congruence.
Qed.

Lemma generateBulk_codec_called_iff_witness :
  let r := {| view := {| urls := lit "  " ++ [10%N; 9%N]; qrs := [];
                         isLoading := false |};
              log := []; draws := 0 |} in
  forallb isWhiteSpace (urls (view r)) = true /\
  codecCalls (callsOf (@generateBulk Sample.qrcode Sample.counting) r) = [].
Proof.
  split; [reflexivity|].
  apply (@generateBulk_codec_called_iff Sample.qrcode Sample.counting).
  reflexivity.
Defined.

(** X4.  With N lines of which K encode, [generateBulk] draws from
    [Math.random] exactly K times, once per success.  Its other calls to the
    outside are codec calls and logged errors only, 2N - K of them: an error
    is logged for a line exactly when the codec rejects it, with the line in
    the message.  No notice is ever shown, even when every line fails. *)
Theorem generateBulk_failures_logged `{QRCodeLib} `{Engine}
        (r : Run BulkGeneratorView.State) :
  let urlList := urlListOf (urls (view r)) in
  let calls := callsOf generateBulk r in
  draws (exec generateBulk r)
  = draws r + List.length (successes urlList) /\
  Forall (fun e => match e with
                   | Ev_toDataURL _ _ | Ev_consoleError _ _ => True
                   | _ => False
                   end) calls /\
  (forall line err,
      In (Ev_consoleError (lit "Failed to generate QR for " ++ line) err) calls
      <-> In line urlList /\ QRCode_toDataURL line bulkOptions = Rejected err) /\
  List.length calls + List.length (successes urlList)
  = 2 * List.length urlList.
Proof.
  intros urlList calls. subst calls. rewrite generateBulk_calls. fold urlList.
  split; [|split; [|split]].
  - destruct (list_eq_dec (list_eq_dec N.eq_dec) urlList []) as [E|Hne].
    + unfold exec. rewrite (generateBulk_empty r E), E. cbn. lia.
    + unfold exec. now rewrite (generateBulk_run r Hne).
  - apply Forall_forall. intros e He. apply forOfCalls_In in He.
    destruct He as [u [_ [->|[err [_ ->]]]]]; exact I.
  - intros line err. rewrite forOfCalls_In. split.
    + intros [u [Hu [Hc|[err' [Herr Hc]]]]]; [discriminate Hc|].
      injection Hc as Hm <-. subst u. tauto.
    + intros [Hin Herr]. exists line. split; [assumption|].
      right. now exists err.
  - apply forOfCalls_length.
Qed.

Lemma generateBulk_failures_logged_witness :
  let r := {| view := {| urls := lit "ab" ++ [10%N] ++ lit "toolong";
                         qrs := []; isLoading := false |};
              log := []; draws := 0 |} in
  Sample.toDataURL (lit "toolong") bulkOptions
  = Rejected (lit "The amount of data is too big to be stored in a QR Code") /\
  In (Ev_consoleError
        (lit "Failed to generate QR for " ++ lit "toolong")
        (lit "The amount of data is too big to be stored in a QR Code"))
     (callsOf (@generateBulk Sample.qrcode Sample.counting) r).
Proof.
  split; [reflexivity|].
  apply (proj1 (proj2 (proj2 (@generateBulk_failures_logged
                                Sample.qrcode Sample.counting _)))).
  split; [vm_compute; tauto|reflexivity].
Defined.

Lemma produced_payload `{QRCodeLib} `{Engine} (urlList : list jsstring) :
  forall d d',
    map (fun qr => (url qr, dataUrl qr)) (produced d urlList)
    = map (fun qr => (url qr, dataUrl qr)) (produced d' urlList).
Proof.
  induction urlList as [|u rest IH]; intros d d'; cbn [produced].
  - reflexivity.
  - destruct (QRCode_toDataURL u bulkOptions); [|apply IH].
    cbn [map url dataUrl]. f_equal. apply IH.
Qed.

(** X5.  A run on a non-empty batch discards the list it finds: the view it
    leaves does not depend on the previous results nor on the previous
    loading flag.  Running it again on the same text gives the same source
    texts and images, with ids made from the next draws. *)
Theorem generateBulk_replaces `{QRCodeLib} `{Engine}
        (r : Run BulkGeneratorView.State) :
  let urlList := urlListOf (urls (view r)) in
  let K := List.length (successes urlList) in
  let r1 := exec generateBulk r in
  let r2 := exec generateBulk r1 in
  urlList <> [] ->
  (forall old loading,
      view (exec generateBulk
              {| view := {| urls := urls (view r); qrs := old;
                            isLoading := loading |};
                 log := log r; draws := draws r |})
      = view r1) /\
  draws r1 = draws r + K /\
  map (fun qr => (url qr, dataUrl qr)) (qrs (view r2))
  = map (fun qr => (url qr, dataUrl qr)) (qrs (view r1)) /\
  map id (qrs (view r2))
  = map (fun i => lit "qr-" ++ Number_toString (Math_random (draws r + K + i)))
        (seq 0 K).
Proof.
  intros urlList K r1 r2 Hne.
  assert (E1 : r1 = {| view := {| urls := urls (view r);
                                  qrs := produced (draws r) urlList;
                                  isLoading := false |};
                       log := log r ++ forOfCalls urlList;
                       draws := draws r + K |}).
  { subst r1. unfold exec. now rewrite (generateBulk_run r Hne). }
  split; [|split; [|split]].
  - intros old loading. unfold exec.
    rewrite generateBulk_run by exact Hne. rewrite E1. reflexivity.
  - now rewrite E1.
  - subst r2. unfold exec. rewrite generateBulk_run; rewrite E1;
      cbn [view urls qrs draws snd]; [|exact Hne].
    apply produced_payload.
  - subst r2. unfold exec. rewrite generateBulk_run; rewrite E1;
      cbn [view urls qrs draws snd]; [|exact Hne].
    apply produced_id.
Qed.

Lemma generateBulk_replaces_witness :
  let old := {| id := lit "qr-0.9"; url := lit "zz";
                dataUrl := lit "data:image/png;base64,zz" |} in
  let r := {| view := {| urls := lit "ab"; qrs := [old]; isLoading := false |};
              log := []; draws := 0 |} in
  let r1 := exec (@generateBulk Sample.qrcode Sample.counting) r in
  urlListOf (urls (view r)) <> [] /\
  map url (qrs (view r1)) = [lit "ab"] /\
  draws r1 = 1.
Proof.
  split; [vm_compute; discriminate|].
  split; [reflexivity|].
  apply (@generateBulk_replaces Sample.qrcode Sample.counting).
  vm_compute. discriminate.
Defined.

(** X6.  The button of the bulk view is enabled on a non-empty text of white
    space only, and pressing it then changes nothing. *)
Theorem blank_text_enabled_noop `{QRCodeLib} `{Engine}
        (r : Run BulkGeneratorView.State) :
  urls (view r) <> [] ->
  forallb isWhiteSpace (urls (view r)) = true ->
  isLoading (view r) = false ->
  Markup.bulkGenerateDisabled (view r) = false /\ generateBulk r = (tt, r).
Proof.
  intros Hne Hblank Hidle. split.
  - unfold Markup.bulkGenerateDisabled. rewrite Hidle.
    apply truthy_nonempty in Hne. now rewrite Hne.
  - apply generateBulk_empty. now apply urlListOf_nil_iff.
Qed.

Lemma blank_text_enabled_noop_witness :
  let r := {| view := {| urls := lit "  "; qrs := []; isLoading := false |};
              log := []; draws := 0 |} in
  Markup.bulkGenerateDisabled (view r) = false /\
  @generateBulk Sample.qrcode Sample.counting r = (tt, r).
Proof.
  apply (@blank_text_enabled_noop Sample.qrcode Sample.counting);
    [discriminate|reflexivity|reflexivity].
Defined.

(** *** More on the archive exporter *)

Lemma string_of_uint_digits (d : Decimal.uint) :
  Forall (fun c => Spec.isAlnum c = true) (lit (NilEmpty.string_of_uint d)).
Proof.
  induction d; cbn [NilEmpty.string_of_uint]; try (constructor; fail);
    constructor; try reflexivity; exact IHd.
Qed.

Lemma firstn_incl {A} (n : nat) (l : list A) (x : A) :
  In x (firstn n l) -> In x l.
Proof.
  intros Hin. rewrite <- (firstn_skipn n l). apply in_or_app. now left.
Qed.

Lemma sanitize_charset (s : jsstring) :
  Forall (fun c => Spec.isAlnum c = true \/ c = 95%N) (Spec.sanitize s).
Proof.
  unfold Spec.sanitize. apply Forall_forall. intros c Hc.
  apply in_map_iff in Hc. destruct Hc as [x [<- _]].
  destruct (Spec.isAlnum x) eqn:E; tauto.
Qed.

Lemma fileName_spec `{Engine} (qr : GeneratedQR) (index : nat) :
  BulkGeneratorView.fileName qr index = Spec.fileName (url qr) (index + 1).
Proof.
  unfold BulkGeneratorView.fileName, Spec.fileName, orElse, slice0.
  rewrite replaceAll_sanitize.
  now destruct (firstn 50 (Spec.sanitize (url qr))).
Qed.

Lemma fileName_nonempty_url `{Engine} (qr : GeneratedQR) (index : nat) :
  url qr <> [] ->
  BulkGeneratorView.fileName qr index = firstn 50 (Spec.sanitize (url qr)).
Proof.
  intros Hne. rewrite fileName_spec. unfold Spec.fileName.
  destruct (url qr) as [|c s]; [congruence|]. reflexivity.
Qed.

(** X7.  A derived file name is never empty and is made of ASCII letters,
    digits and underscores only, so that an entry name has no path separator
    and no dot but the one of [.png]; it has at most 50 code units when the
    source text is not empty. *)
Theorem fileName_safe `{Engine} (qr : GeneratedQR) (index : nat) :
  BulkGeneratorView.fileName qr index <> [] /\
  Forall (fun c => Spec.isAlnum c = true \/ c = 95%N)
         (BulkGeneratorView.fileName qr index) /\
  ~ In 47%N (BulkGeneratorView.fileName qr index) /\
  ~ In 46%N (BulkGeneratorView.fileName qr index) /\
  (url qr <> [] ->
   List.length (BulkGeneratorView.fileName qr index) <= 50).
Proof.
  assert (C : Forall (fun c => Spec.isAlnum c = true \/ c = 95%N)
                     (BulkGeneratorView.fileName qr index)).
  { rewrite fileName_spec. unfold Spec.fileName.
    destruct (firstn 50 (Spec.sanitize (url qr))) as [|c s] eqn:E.
    - apply Forall_app. split.
      + repeat constructor; left; reflexivity.
      + eapply Forall_impl; [|apply string_of_uint_digits]. simpl. tauto.
    - rewrite <- E. apply Forall_forall. intros x Hx.
      apply firstn_incl in Hx. revert x Hx. apply Forall_forall.
      apply sanitize_charset. }
  rewrite Forall_forall in C.
  repeat split.
  - rewrite fileName_spec. unfold Spec.fileName.
    destruct (firstn 50 (Spec.sanitize (url qr))); discriminate.
  - now apply Forall_forall.
  - intros Hin. destruct (C _ Hin); discriminate.
  - intros Hin. destruct (C _ Hin); discriminate.
  - intros Hne. rewrite fileName_nonempty_url by exact Hne.
    apply firstn_le_length.
Qed.

Lemma fileName_safe_witness :
  let qr := {| id := []; url := lit "https://a.com/b?c=1"; dataUrl := [] |} in
  url qr <> [] /\
  List.length (@BulkGeneratorView.fileName Sample.counting qr 0) <= 50.
Proof.
  split; [discriminate|].
  apply (@fileName_safe Sample.counting). discriminate.
Defined.

(** X8.  For the results [generateBulk] leaves, the fallback name is never
    used: whatever the position, the file name of a result is its sanitized
    source text cut to 50 code units. *)
Theorem generateBulk_names `{QRCodeLib} `{Engine}
        (r : Run BulkGeneratorView.State) :
  urlListOf (urls (view r)) <> [] ->
  Forall (fun qr => forall index,
              BulkGeneratorView.fileName qr index
              = firstn 50 (Spec.sanitize (url qr)))
         (qrs (view (exec generateBulk r))).
Proof.
  intros Hne. unfold exec. rewrite (generateBulk_run r Hne).
  cbn [snd view qrs]. apply Forall_forall. intros qr Hin index.
  apply fileName_nonempty_url.
  assert (Hs : In (url qr) (successes (urlListOf (urls (view r))))).
  { rewrite <- (produced_url _ (draws r)). now apply in_map. }
  unfold successes in Hs. apply filter_In in Hs. destruct Hs as [Hs _].
  now apply (urlListOf_lines (urls (view r))).
Qed.

Lemma generateBulk_names_witness :
  let r := {| view := {| urls := lit "a.b"; qrs := []; isLoading := false |};
              log := []; draws := 0 |} in
  urlListOf (urls (view r)) <> [] /\
  Forall (fun qr => forall index,
              @BulkGeneratorView.fileName Sample.counting qr index
              = firstn 50 (Spec.sanitize (url qr)))
         (qrs (view (exec (@generateBulk Sample.qrcode Sample.counting) r))).
Proof.
  split; [vm_compute; discriminate|].
  apply (@generateBulk_names Sample.qrcode Sample.counting).
  vm_compute. discriminate.
Defined.

(** X9.  Two results with non-empty source texts whose sanitized texts agree
    on their first 50 code units derive the same name, and the archive of
    the two has one entry, which holds the image of the second. *)
Theorem downloadZip_truncation_collision `{Engine} (q1 q2 : GeneratedQR) :
  url q1 <> [] -> url q2 <> [] ->
  firstn 50 (Spec.sanitize (url q1)) = firstn 50 (Spec.sanitize (url q2)) ->
  BulkGeneratorView.fileName q1 0 = BulkGeneratorView.fileName q2 1 /\
  forEach [q1; q2] 0 []
  = [(BulkGeneratorView.fileName q2 1 ++ lit ".png",
      nth_error (split 44%N (dataUrl q2)) 1)].
Proof.
  intros H1 H2 E.
  assert (N : BulkGeneratorView.fileName q1 0 = BulkGeneratorView.fileName q2 1).
  { now rewrite !fileName_nonempty_url by assumption. }
  split; [exact N|].
  cbn [forEach JSZip_file]. rewrite N. now rewrite eqb_refl.
Qed.

Lemma downloadZip_truncation_collision_witness :
  let long := repeat 97%N 50 in
  let q1 := {| id := lit "qr-0.1"; url := long ++ lit "/one";
               dataUrl := lit "data:image/png;base64,AAAA" |} in
  let q2 := {| id := lit "qr-0.2"; url := long ++ lit "/two";
               dataUrl := lit "data:image/png;base64,BBBB" |} in
  url q1 <> url q2 /\
  @forEach Sample.counting [q1; q2] 0 []
  = [(long ++ lit ".png", Some (lit "BBBB"))].
Proof.
  split; [vm_compute; discriminate|].
  apply (@downloadZip_truncation_collision Sample.counting);
    vm_compute; congruence.
Defined.

(** X10.  The content of an entry is what stands between the first and the
    second comma of the data URL, or after the first comma when there is no
    second one: the payload of [header,payload] and of [header,payload,rest]
    when neither the header nor the payload has a comma.  It is nothing at
    all ([undefined]) when the data URL has no comma. *)
Theorem downloadZip_entry_content `{Engine} (qr : GeneratedQR) :
  (forall header payload,
      dataUrl qr = header ++ 44%N :: payload ->
      ~ In 44%N header -> ~ In 44%N payload ->
      forEach [qr] 0 []
      = [(BulkGeneratorView.fileName qr 0 ++ lit ".png", Some payload)]) /\
  (forall header payload rest,
      dataUrl qr = header ++ 44%N :: payload ++ 44%N :: rest ->
      ~ In 44%N header -> ~ In 44%N payload ->
      forEach [qr] 0 []
      = [(BulkGeneratorView.fileName qr 0 ++ lit ".png", Some payload)]) /\
  (~ In 44%N (dataUrl qr) ->
   forEach [qr] 0 []
   = [(BulkGeneratorView.fileName qr 0 ++ lit ".png", None)]).
Proof.
  split; [|split].
  - intros header payload E Hh Hp. cbn [forEach JSZip_file].
    now rewrite E, split_app_sep, !split_no_sep by assumption.
  - intros header payload rest E Hh Hp. cbn [forEach JSZip_file].
    rewrite E, split_app_sep, split_app_sep, !split_no_sep by assumption.
    reflexivity.
  - intros Hout. cbn [forEach JSZip_file].
    now rewrite split_no_sep by assumption.
Qed.

Lemma downloadZip_entry_content_witness :
  let qr := {| id := lit "qr-0.1"; url := lit "ab";
               dataUrl := lit "data:image/png;base64,AAAA,BBBB" |} in
  ~ In 44%N (lit "data:image/png;base64") /\
  ~ In 44%N (lit "AAAA") /\
  @forEach Sample.counting [qr] 0 []
  = [(lit "ab.png", Some (lit "AAAA"))].
Proof.
  assert (Hh : ~ In 44%N (lit "data:image/png;base64"))
    by (vm_compute; intuition discriminate).
  assert (Hp : ~ In 44%N (lit "AAAA"))
    by (vm_compute; intuition discriminate).
  split; [exact Hh|split; [exact Hp|]].
  exact (proj1 (proj2 (@downloadZip_entry_content Sample.counting
                         {| id := lit "qr-0.1"; url := lit "ab";
                            dataUrl := lit "data:image/png;base64,AAAA,BBBB" |}))
               (lit "data:image/png;base64") (lit "AAAA") (lit "BBBB")
               eq_refl Hh Hp).
Defined.

(** *** The single generator *)

Lemma trim_truthy_blank (s : jsstring) :
  truthy (trim s) = negb (forallb isWhiteSpace s).
Proof.
  destruct (forallb isWhiteSpace s) eqn:W.
  - apply trim_nil_iff in W. now rewrite W.
  - destruct (trim s) eqn:E; [|reflexivity].
    apply trim_nil_iff in E. congruence.
Qed.

(** X11.  On a text that is empty or white space only, [generateQR] clears
    the displayed code, calls nothing and leaves the loading flag alone; the
    button is enabled for such a text when it is not empty. *)
Theorem generateQR_blank `{QRCodeLib} (r : Run GeneratorView.State) :
  forallb isWhiteSpace (GeneratorView.url (view r)) = true ->
  GeneratorView.generateQR_settled r
  = (tt, {| view := {| GeneratorView.url := GeneratorView.url (view r);
                       GeneratorView.qrCode := [];
                       GeneratorView.isLoading :=
                         GeneratorView.isLoading (view r) |};
            log := log r; draws := draws r |}) /\
  callsOf GeneratorView.generateQR_settled r = [] /\
  (GeneratorView.url (view r) <> [] ->
   GeneratorView.isLoading (view r) = false ->
   GeneratorView.generateDisabled (view r) = false).
Proof.
  intros Hblank.
  assert (G : GeneratorView.generateQR_settled r
              = (tt, {| view := {| GeneratorView.url := GeneratorView.url (view r);
                                   GeneratorView.qrCode := [];
                                   GeneratorView.isLoading :=
                                     GeneratorView.isLoading (view r) |};
                        log := log r; draws := draws r |})).
  { unfold GeneratorView.generateQR_settled, GeneratorView.generateQR,
      bind, getState.
    now rewrite trim_truthy_blank, Hblank. }
  split; [exact G|split].
  - apply callsOf_appended. unfold exec. rewrite G. cbn [snd log].
    now rewrite app_nil_r.
  - intros Hne Hidle. unfold GeneratorView.generateDisabled.
    apply truthy_nonempty in Hne. now rewrite Hne, Hidle.
Qed.

Lemma generateQR_blank_witness :
  let r := {| view := {| GeneratorView.url := lit "  ";
                         GeneratorView.qrCode := lit "data:image/png;base64,ab";
                         GeneratorView.isLoading := false |};
              log := []; draws := 0 |} in
  GeneratorView.generateDisabled (view r) = false /\
  GeneratorView.qrCode
    (view (exec (@GeneratorView.generateQR_settled Sample.qrcode) r)) = [].
Proof.
  intros r.
  destruct (@generateQR_blank Sample.qrcode r eq_refl) as [G [_ B]].
  split.
  - apply B; [discriminate|reflexivity].
  - unfold exec. now rewrite G.
Defined.

(** X12.  On a text with a code unit that is not white space, [generateQR]
    calls the codec once, with the text as typed (not trimmed) and the
    options of the single view, and the button is disabled until the
    callback runs.  After the callback the loading flag is off; the code is
    the image on success, and on failure it is cleared and the error is
    logged. *)
Theorem generateQR_encodes `{QRCodeLib} (r : Run GeneratorView.State) :
  let text := GeneratorView.url (view r) in
  forallb isWhiteSpace text = false ->
  GeneratorView.generateDisabled (view (exec GeneratorView.generateQR r))
  = true /\
  callsOf GeneratorView.generateQR r
  = [Ev_toDataURL text GeneratorView.singleOptions] /\
  (forall image,
      QRCode_toDataURL text GeneratorView.singleOptions = Resolved image ->
      view (exec GeneratorView.generateQR_settled r)
      = {| GeneratorView.url := text; GeneratorView.qrCode := image;
           GeneratorView.isLoading := false |}
      /\ callsOf GeneratorView.generateQR_settled r
         = [Ev_toDataURL text GeneratorView.singleOptions]) /\
  (forall err,
      QRCode_toDataURL text GeneratorView.singleOptions = Rejected err ->
      view (exec GeneratorView.generateQR_settled r)
      = {| GeneratorView.url := text; GeneratorView.qrCode := [];
           GeneratorView.isLoading := false |}
      /\ callsOf GeneratorView.generateQR_settled r
         = [Ev_toDataURL text GeneratorView.singleOptions;
            Ev_consoleError err []]).
Proof.
  intros text Hnb.
  assert (T : truthy (trim text) = true)
    by now rewrite trim_truthy_blank, Hnb.
  split; [|split; [|split]].
  - unfold exec, GeneratorView.generateQR, bind, getState. fold text.
    rewrite T. cbn. unfold GeneratorView.generateDisabled. cbn.
    apply orb_true_r.
  - apply callsOf_appended.
    unfold exec, GeneratorView.generateQR, bind, getState. fold text.
    now rewrite T.
  - intros image E.
    assert (G : GeneratorView.generateQR_settled r
                = (tt, {| view := {| GeneratorView.url := text;
                                     GeneratorView.qrCode := image;
                                     GeneratorView.isLoading := false |};
                          log := log r ++
                                 [Ev_toDataURL text GeneratorView.singleOptions];
                          draws := draws r |})).
    { unfold GeneratorView.generateQR_settled, GeneratorView.generateQR,
        bind, getState. fold text. rewrite T. cbn. fold text. now rewrite E. }
    split; [unfold exec; now rewrite G|].
    apply callsOf_appended. unfold exec. now rewrite G.
  - intros err E.
    assert (G : GeneratorView.generateQR_settled r
                = (tt, {| view := {| GeneratorView.url := text;
                                     GeneratorView.qrCode := [];
                                     GeneratorView.isLoading := false |};
                          log := log r ++
                                 [Ev_toDataURL text GeneratorView.singleOptions;
                                  Ev_consoleError err []];
                          draws := draws r |})).
    { unfold GeneratorView.generateQR_settled, GeneratorView.generateQR,
        bind, getState. fold text. rewrite T. cbn. fold text. rewrite E.
      cbn. now rewrite <- app_assoc. }
    split; [unfold exec; now rewrite G|].
    apply callsOf_appended. unfold exec. now rewrite G.
Qed.

Lemma generateQR_encodes_witness :
  let r := {| view := {| GeneratorView.url := lit " ab";
                         GeneratorView.qrCode := [];
                         GeneratorView.isLoading := false |};
              log := []; draws := 0 |} in
  forallb isWhiteSpace (GeneratorView.url (view r)) = false /\
  callsOf GeneratorView.generateQR r
  = [Ev_toDataURL (lit " ab") GeneratorView.singleOptions] /\
  GeneratorView.qrCode
    (view (exec (@GeneratorView.generateQR_settled Sample.qrcode) r))
  = lit "data:image/png;base64, ab".
Proof.
  intros r.
  destruct (@generateQR_encodes Sample.qrcode r eq_refl) as [_ [C [S _]]].
  split; [reflexivity|split; [exact C|]].
  destruct (S (lit "data:image/png;base64, ab") eq_refl) as [V _].
  now rewrite V.
Defined.

(** *** More on uploaded files *)

Section FilesMore.
Context `{Html5QrcodeLib}.

Lemma scanPromises_run (files : list File) :
  forall r : Run ScannerView.State,
    scanPromises files r =
    (tt, {| view := view r; log := log r ++ map Ev_scanFile files;
            draws := draws r |}).
Proof.
  induction files as [|f rest IH]; intros r; cbn [scanPromises map].
  - unfold ret. rewrite app_nil_r. now destruct r.
  - unfold bind, emit. rewrite IH. cbn [view log draws].
    now rewrite <- app_assoc.
Qed.

Lemma promiseAll_run (files : list File) :
  forall r : Run ScannerView.State,
    promiseAll files r =
    (map (fun f => match Html5Qrcode_scanFile f with
                   | Resolved text =>
                       Some {| fileName := file_name f; decodedText := text |}
                   | Rejected _ => None
                   end) files,
     {| view := view r;
        log := log r ++
               flat_map (fun f => match Html5Qrcode_scanFile f with
                                  | Resolved _ => []
                                  | Rejected err =>
                                      [Ev_consoleWarn
                                         (lit "Could not scan file: "
                                          ++ file_name f) err]
                                  end) files;
        draws := draws r |}).
Proof.
  induction files as [|f rest IH]; intros r; cbn [promiseAll map flat_map].
  - unfold ret. rewrite app_nil_r. now destruct r.
  - unfold bind, scanSettled.
    destruct (Html5Qrcode_scanFile f) as [text|err].
    + unfold ret. rewrite IH. reflexivity.
    + unfold console_warn, emit, bind, ret. rewrite IH. cbn [view log draws].
      now rewrite <- app_assoc.
Qed.

Lemma notNull_map (files : list File) :
  notNull (map (fun f => match Html5Qrcode_scanFile f with
                         | Resolved text =>
                             Some {| fileName := file_name f;
                                     decodedText := text |}
                         | Rejected _ => None
                         end) files)
  = flat_map (fun f => match Html5Qrcode_scanFile f with
                       | Resolved text =>
                           [{| fileName := file_name f; decodedText := text |}]
                       | Rejected _ => []
                       end) files.
Proof.
  induction files as [|f rest IH]; cbn [map notNull flat_map]; [reflexivity|].
  destruct (Html5Qrcode_scanFile f); cbn [notNull app]; now rewrite IH.
Qed.

(** A run of [handleFileChange] on 1 to 10 files. *)
Lemma handleFileChange_run (files : list File) (r : Run ScannerView.State) :
  1 <= List.length files <= 10 ->
  let found :=
    flat_map (fun f => match Html5Qrcode_scanFile f with
                       | Resolved text =>
                           [{| fileName := file_name f; decodedText := text |}]
                       | Rejected _ => []
                       end) files in
  handleFileChange (Some files) r =
  (tt,
   {| view := {| scanResults := found;
                 isScanning := isScanning (view r);
                 isProcessingFile := false;
                 scannerRef := scannerRef (view r) |};
      log := log r ++
             map Ev_scanFile files ++
             flat_map (fun f => match Html5Qrcode_scanFile f with
                                | Resolved _ => []
                                | Rejected err =>
                                    [Ev_consoleWarn
                                       (lit "Could not scan file: "
                                        ++ file_name f) err]
                                end) files ++
             (if Nat.eqb (List.length found) 0
              then [Ev_alert nothingFoundNotice] else []) ++
             [Ev_clearInput];
      draws := draws r |}).
Proof.
  intros Hlen found. unfold handleFileChange.
  destruct (Nat.eqb_spec (List.length files) 0) as [E|_]; [lia|].
  destruct (Nat.ltb_spec 10 (List.length files)) as [E|_]; [lia|].
  unfold bind, setIsProcessingFile, setScanResults, setState.
  rewrite scanPromises_run, promiseAll_run, notNull_map. fold found.
  cbn [view log draws scanResults isScanning isProcessingFile scannerRef].
  destruct (Nat.eqb (List.length found) 0);
    unfold alert, emit, ret; cbn [view log draws scanResults isScanning
                                    isProcessingFile scannerRef];
    now rewrite <- !app_assoc.
Qed.

End FilesMore.

Section FilesHelpers.
Context `{Html5QrcodeLib}.

Lemma filter_codec_scanFile (files : list File) :
  filter isCodecCall (map Ev_scanFile files) = map Ev_scanFile files.
Proof. induction files; simpl; congruence. Qed.

Lemma filter_codec_warns (files : list File) :
  filter isCodecCall
         (flat_map (fun f => match Html5Qrcode_scanFile f with
                             | Resolved _ => []
                             | Rejected err =>
                                 [Ev_consoleWarn
                                    (lit "Could not scan file: " ++ file_name f)
                                    err]
                             end) files) = [].
Proof.
  induction files as [|f rest IH]; cbn [flat_map]; [reflexivity|].
  destruct (Html5Qrcode_scanFile f); cbn [app filter isCodecCall]; exact IH.
Qed.

Lemma handleFileChange_rejected_run (files : list File)
      (r : Run ScannerView.State) :
  10 < List.length files ->
  handleFileChange (Some files) r =
  (tt, {| view := view r;
          log := log r ++ [Ev_alert tooManyFilesNotice; Ev_clearInput];
          draws := draws r |}).
Proof.
  intros Hlen. unfold handleFileChange.
  destruct (Nat.eqb_spec (List.length files) 0) as [E|_]; [lia|].
  destruct (Nat.ltb_spec 10 (List.length files)) as [_|E]; [|lia].
  unfold bind, alert, emit. cbn [view log draws].
  now rewrite <- app_assoc.
Qed.

End FilesHelpers.

(** X13.  For 1 to 10 files, [handleFileChange] launches one decode per file
    in the order of the files, replaces the results by one result per file
    that decodes, labelled with the file's name and in the order of the
    files, ends with the processing flag off and resets the file input
    last. *)
Theorem handleFileChange_results `{Html5QrcodeLib} (files : list File)
        (r : Run ScannerView.State) :
  1 <= List.length files <= 10 ->
  let r' := exec (handleFileChange (Some files)) r in
  scanResults (view r')
  = flat_map (fun f => match Html5Qrcode_scanFile f with
                       | Resolved text =>
                           [{| fileName := file_name f; decodedText := text |}]
                       | Rejected _ => []
                       end) files /\
  codecCalls (callsOf (handleFileChange (Some files)) r)
  = map Ev_scanFile files /\
  isProcessingFile (view r') = false /\
  (exists before,
      callsOf (handleFileChange (Some files)) r = before ++ [Ev_clearInput]).
Proof.
  intros Hlen r'. subst r'.
  pose proof (handleFileChange_run files r Hlen) as G. cbv zeta in G.
  unfold callsOf, exec. rewrite G. cbn [snd view log scanResults isProcessingFile].
  rewrite skipn_app_exact. repeat split.
  - unfold codecCalls. rewrite !filter_app, filter_codec_scanFile,
      filter_codec_warns.
    match goal with |- context [if ?b then _ else _] => destruct b end;
      cbn; now rewrite app_nil_r.
  - eexists. rewrite !app_assoc. reflexivity.
Qed.

Lemma handleFileChange_results_witness :
  let good := {| file_name := lit "a.png"; file_bytes := [1; 97]%N |} in
  let bad := {| file_name := lit "b.png"; file_bytes := [0]%N |} in
  let old := {| fileName := lit "Camera Scan"; decodedText := lit "zz" |} in
  let r := {| view := {| scanResults := [old]; isScanning := false;
                         isProcessingFile := false; scannerRef := None |};
              log := []; draws := 0 |} in
  1 <= List.length [bad; good] <= 10 /\
  scanResults (view (exec (@handleFileChange Sample.decoder
                             (Some [bad; good])) r))
  = [{| fileName := lit "a.png"; decodedText := lit "a" |}].
Proof.
  split; [simpl; lia|].
  apply (@handleFileChange_results Sample.decoder). simpl. lia.
Defined.

(** X14.  For 1 to 10 files the notice that nothing was found is shown
    exactly when no file decodes, a warning naming the file is logged exactly
    for the files that do not decode, and the notice about too many files is
    not shown. *)
Theorem handleFileChange_notices `{Html5QrcodeLib} (files : list File)
        (r : Run ScannerView.State) :
  1 <= List.length files <= 10 ->
  let calls := callsOf (handleFileChange (Some files)) r in
  (In (Ev_alert nothingFoundNotice) calls
   <-> forall f, In f files ->
                 exists err, Html5Qrcode_scanFile f = Rejected err) /\
  (forall name err,
      In (Ev_consoleWarn (lit "Could not scan file: " ++ name) err) calls
      <-> exists f, In f files /\ file_name f = name
                    /\ Html5Qrcode_scanFile f = Rejected err) /\
  ~ In (Ev_alert tooManyFilesNotice) calls.
Proof.
  intros Hlen calls. subst calls.
  pose proof (handleFileChange_run files r Hlen) as G. cbv zeta in G.
  unfold callsOf, exec. rewrite G. cbn [snd log]. rewrite skipn_app_exact.
  set (found :=
         flat_map (fun f => match Html5Qrcode_scanFile f with
                            | Resolved text =>
                                [{| fileName := file_name f;
                                    decodedText := text |}]
                            | Rejected _ => []
                            end) files).
  assert (Hfound : found = [] <->
                   forall f, In f files ->
                             exists err, Html5Qrcode_scanFile f = Rejected err).
  { subst found. clear. induction files as [|f rest IH]; cbn [flat_map].
    - split; [intros _ f []|reflexivity].
    - destruct (Html5Qrcode_scanFile f) as [text|err] eqn:E; cbn [app].
      + split; [discriminate|]. intros Hall.
        destruct (Hall f (or_introl eq_refl)) as [err Herr]. congruence.
      + rewrite IH. split.
        * intros Hall g [<-|Hg]; [now exists err|now apply Hall].
        * intros Hall g Hg. apply Hall. now right. }
  assert (Hw : forall e,
             In e (flat_map (fun f => match Html5Qrcode_scanFile f with
                                      | Resolved _ => []
                                      | Rejected err =>
                                          [Ev_consoleWarn
                                             (lit "Could not scan file: "
                                              ++ file_name f) err]
                                      end) files)
             <-> exists f err, In f files
                               /\ Html5Qrcode_scanFile f = Rejected err
                               /\ e = Ev_consoleWarn
                                        (lit "Could not scan file: "
                                         ++ file_name f) err).
  { intros e. rewrite in_flat_map. split.
    - intros [f [Hf He]]. destruct (Html5Qrcode_scanFile f) as [|err] eqn:E;
        [destruct He|]. destruct He as [<-|[]]. now exists f, err.
    - intros [f [err [Hf [E ->]]]]. exists f. split; [assumption|].
      rewrite E. now left. }
  assert (Hs : forall e, In e (map Ev_scanFile files) ->
                         exists f, e = Ev_scanFile f).
  { intros e He. apply in_map_iff in He. destruct He as [f [<- _]].
    now exists f. }
  split; [|split].
  - rewrite <- Hfound. rewrite !in_app_iff. split.
    + intros [Hin|[Hin|[Hin|Hin]]].
      * apply Hs in Hin. destruct Hin as [f Hf]. discriminate.
      * apply Hw in Hin. destruct Hin as [f [err [_ [_ Hf]]]]. discriminate.
      * destruct found; [reflexivity|destruct Hin].
      * destruct Hin as [Hf|[]]. discriminate.
    + intros ->. right. right. left. now left.
  - intros name err. rewrite !in_app_iff. split.
    + intros [Hin|[Hin|[Hin|Hin]]].
      * apply Hs in Hin. destruct Hin as [f Hf]. discriminate.
      * apply Hw in Hin. destruct Hin as [f [err' [Hf [E Hc]]]].
        injection Hc as Hn <-. exists f. repeat split; try assumption.
        now symmetry.
      * destruct (Nat.eqb (List.length found) 0); [|destruct Hin].
        destruct Hin as [Hf|[]]. discriminate.
      * destruct Hin as [Hf|[]]. discriminate.
    + intros [f [Hf [<- E]]]. right. left. apply Hw. now exists f, err.
  - rewrite !in_app_iff. intros [Hin|[Hin|[Hin|Hin]]].
    + apply Hs in Hin. destruct Hin as [f Hf]. discriminate.
    + apply Hw in Hin. destruct Hin as [f [err [_ [_ Hf]]]]. discriminate.
    + destruct (Nat.eqb (List.length found) 0); [|destruct Hin].
      destruct Hin as [Hf|[]]. discriminate.
    + destruct Hin as [Hf|[]]. discriminate.
Qed.

Lemma handleFileChange_notices_witness :
  let bad := {| file_name := lit "b.png"; file_bytes := [0]%N |} in
  let r := {| view := {| scanResults := []; isScanning := false;
                         isProcessingFile := false; scannerRef := None |};
              log := []; draws := 0 |} in
  1 <= List.length [bad] <= 10 /\
  In (Ev_alert nothingFoundNotice)
     (callsOf (@handleFileChange Sample.decoder (Some [bad])) r).
Proof.
  intros bad r.
  assert (Hlen : 1 <= List.length [bad] <= 10) by (simpl; lia).
  split; [exact Hlen|].
  apply (proj1 (@handleFileChange_notices Sample.decoder [bad] r Hlen)).
  intros f [<-|[]]. now eexists.
Defined.

(** X15.  Whatever the files, [handleFileChange] leaves the camera session
    alone: the scanning flag and the scanner of [scannerRef] are as before,
    and it never asks a scanner to start or stop. *)
Theorem handleFileChange_keeps_session `{Html5QrcodeLib}
        (files : option (list File)) (r : Run ScannerView.State) :
  let r' := exec (handleFileChange files) r in
  isScanning (view r') = isScanning (view r) /\
  scannerRef (view r') = scannerRef (view r) /\
  sessionActive (view r') = sessionActive (view r) /\
  ~ In Ev_scannerStart (callsOf (handleFileChange files) r) /\
  ~ In Ev_scannerStop (callsOf (handleFileChange files) r).
Proof.
  intros r'. subst r'.
  destruct files as [files|]; [|rewrite callsOf_unchanged; now repeat split].
  destruct (Nat.eq_dec (List.length files) 0) as [E0|Hn0].
  - assert (G : handleFileChange (Some files) r = (tt, r)).
    { unfold handleFileChange. now rewrite E0. }
    assert (X : exec (handleFileChange (Some files)) r = r)
      by (unfold exec; now rewrite G).
    rewrite (callsOf_unchanged _ _ X), X. now repeat split.
  - destruct (Nat.lt_ge_cases 10 (List.length files)) as [Hmany|Hfew].
    + pose proof (handleFileChange_rejected_run files r Hmany) as G.
      unfold callsOf, exec, sessionActive. rewrite G. cbn [snd view log].
      rewrite skipn_app_exact. repeat split;
        intros [Hf|[Hf|[]]]; discriminate.
    + assert (Hlen : 1 <= List.length files <= 10) by lia.
      pose proof (handleFileChange_run files r Hlen) as G. cbv zeta in G.
      unfold callsOf, exec, sessionActive. rewrite G.
      cbn [snd view log isScanning scannerRef].
      rewrite skipn_app_exact.
      assert (N : forall e, (e = Ev_scannerStart \/ e = Ev_scannerStop) ->
                  ~ In e (map Ev_scanFile files ++
                          flat_map (fun f => match Html5Qrcode_scanFile f with
                                             | Resolved _ => []
                                             | Rejected err =>
                                                 [Ev_consoleWarn
                                                    (lit "Could not scan file: "
                                                     ++ file_name f) err]
                                             end) files ++
                          (if Nat.eqb
                                (List.length
                                   (flat_map
                                      (fun f =>
                                         match Html5Qrcode_scanFile f with
                                         | Resolved text =>
                                             [{| fileName := file_name f;
                                                 decodedText := text |}]
                                         | Rejected _ => []
                                         end) files)) 0
                           then [Ev_alert nothingFoundNotice] else []) ++
                          [Ev_clearInput])).
      { intros e He. rewrite !in_app_iff. intros [Hin|[Hin|[Hin|Hin]]].
        - apply in_map_iff in Hin. destruct Hin as [f [<- _]].
          destruct He; discriminate.
        - apply in_flat_map in Hin. destruct Hin as [f [_ Hin]].
          destruct (Html5Qrcode_scanFile f); [destruct Hin|].
          destruct Hin as [<-|[]]. destruct He; discriminate.
        - match type of Hin with
          | In _ (if ?b then _ else _) => destruct b
          end; [|destruct Hin].
          destruct Hin as [<-|[]]. destruct He; discriminate.
        - destruct Hin as [<-|[]]. destruct He; discriminate. }
      repeat split; apply N; tauto.
Qed.

(** X16.  A decode is attempted exactly when the list has 1 to 10 files: ten
    files are accepted and eleven are not. *)
Theorem handleFileChange_decodes_iff `{Html5QrcodeLib}
        (files : list File) (r : Run ScannerView.State) :
  codecCalls (callsOf (handleFileChange (Some files)) r) <> []
  <-> 1 <= List.length files <= 10.
Proof.
  destruct (Nat.eq_dec (List.length files) 0) as [E0|Hn0].
  - assert (G : handleFileChange (Some files) r = (tt, r)).
    { unfold handleFileChange. now rewrite E0. }
    rewrite callsOf_unchanged by (unfold exec; now rewrite G).
    simpl. split; [congruence|lia].
  - destruct (Nat.lt_ge_cases 10 (List.length files)) as [Hmany|Hfew].
    + pose proof (handleFileChange_rejected_run files r Hmany) as G.
      unfold callsOf, exec. rewrite G. cbn [snd log].
      rewrite skipn_app_exact. simpl. split; [congruence|lia].
    + assert (Hlen : 1 <= List.length files <= 10) by lia.
      pose proof (handleFileChange_run files r Hlen) as G. cbv zeta in G.
      unfold callsOf, exec. rewrite G. cbn [snd log].
      rewrite skipn_app_exact. split; [intros _; exact Hlen|intros _].
      unfold codecCalls. rewrite filter_app, filter_codec_scanFile.
      destruct files as [|f rest]; [simpl in Hn0; lia|]. discriminate.
Qed.

Lemma handleFileChange_decodes_iff_witness :
  let f := {| file_name := lit "a.png"; file_bytes := [1; 97]%N |} in
  let r := {| view := {| scanResults := []; isScanning := false;
                         isProcessingFile := false; scannerRef := None |};
              log := []; draws := 0 |} in
  1 <= List.length (repeat f 10) <= 10 /\
  codecCalls (callsOf (@handleFileChange Sample.decoder
                         (Some (repeat f 10))) r) <> [] /\
  ~ 1 <= List.length (repeat f 11) <= 10 /\
  ~ codecCalls (callsOf (@handleFileChange Sample.decoder
                           (Some (repeat f 11))) r) <> [].
Proof.
  intros f r.
  assert (H10 : 1 <= List.length (repeat f 10) <= 10) by (simpl; lia).
  assert (H11 : ~ 1 <= List.length (repeat f 11) <= 10) by (simpl; lia).
  split; [exact H10|split; [|split; [exact H11|]]].
  - apply (@handleFileChange_decodes_iff Sample.decoder). exact H10.
  - intros Hc. apply H11.
    now apply (@handleFileChange_decodes_iff Sample.decoder (repeat f 11) r).
Defined.

Lemma handleFileChange_keeps_session_witness :
  let f := {| file_name := lit "a.png"; file_bytes := [1; 97]%N |} in
  let scanner := {| elementId := readerId; Html5Qrcode_isScanning := true |} in
  let r := {| view := {| scanResults := []; isScanning := true;
                         isProcessingFile := false;
                         scannerRef := Some scanner |};
              log := []; draws := 0 |} in
  scannerRef (view (exec (@handleFileChange Sample.decoder (Some [f])) r))
  = Some scanner.
Proof.
  intros f scanner r.
  exact (proj1 (proj2 (@handleFileChange_keeps_session Sample.decoder
                         (Some [f]) r))).
Defined.

(** *** More on live capture *)

Lemma startScan_run (cameras : settled (option (list jsstring)))
      (r : Run ScannerView.State) :
  startScan cameras r =
  (tt,
   match cameras with
   | Resolved (Some (_ :: _)) =>
       {| view := {| scanResults := []; isScanning := true;
                     isProcessingFile := isProcessingFile (view r);
                     scannerRef := Some (new_Html5Qrcode readerId) |};
          log := log r ++ [Ev_getCameras; Ev_scannerStart];
          draws := draws r |}
   | Resolved _ =>
       {| view := {| scanResults := []; isScanning := isScanning (view r);
                     isProcessingFile := isProcessingFile (view r);
                     scannerRef := scannerRef (view r) |};
          log := log r ++ [Ev_getCameras];
          draws := draws r |}
   | Rejected err =>
       {| view := {| scanResults := []; isScanning := isScanning (view r);
                     isProcessingFile := isProcessingFile (view r);
                     scannerRef := scannerRef (view r) |};
          log := log r ++ [Ev_getCameras;
                           Ev_consoleError (lit "Camera permissions error:") err;
                           Ev_alert permissionNotice];
          draws := draws r |}
   end).
Proof.
  unfold startScan, bind, setScanResults, setIsScanning, setScannerRef,
    setState, console_error, alert, ret.
  unfold emit.
  destruct cameras as [[[|d ds]|]|err];
    cbn [view log draws scanResults isScanning isProcessingFile scannerRef];
    now rewrite <- ?app_assoc.
Qed.

(** X17.  [startScan] always clears the results and asks for the cameras
    first.  It starts a scanner exactly when the camera list is not empty,
    and shows the permission notice exactly when asking for the cameras
    fails; when the list is empty or missing it does nothing more and shows
    no notice at all. *)
Theorem startScan_outcomes (cameras : settled (option (list jsstring)))
        (r : Run ScannerView.State) :
  let r' := exec (startScan cameras) r in
  let calls := callsOf (startScan cameras) r in
  scanResults (view r') = [] /\
  (exists rest, calls = Ev_getCameras :: rest) /\
  (In Ev_scannerStart calls
   <-> exists d ds, cameras = Resolved (Some (d :: ds))) /\
  (In (Ev_alert permissionNotice) calls
   <-> exists err, cameras = Rejected err) /\
  (cameras = Resolved None \/ cameras = Resolved (Some []) ->
   calls = [Ev_getCameras]
   /\ isScanning (view r') = isScanning (view r)
   /\ scannerRef (view r') = scannerRef (view r)).
Proof.
  intros r' calls. subst r' calls. unfold callsOf, exec.
  rewrite startScan_run. cbn [snd].
  destruct cameras as [[[|d ds]|]|err];
    cbn [view log scanResults isScanning scannerRef];
    rewrite skipn_app_exact;
    (split; [reflexivity|]); (split; [eexists; reflexivity|]);
    (split; [|split]).
  - split; [intros [Hf|[]]; discriminate|intros [d [ds Hf]]; discriminate].
  - split; [intros [Hf|[]]; discriminate|intros [err Hf]; discriminate].
  - intros _. now repeat split.
  - split; [intros _; now exists d, ds|intros _; right; now left].
  - split; [intros [Hf|[Hf|[]]]; discriminate|intros [err Hf]; discriminate].
  - intros [Hf|Hf]; discriminate.
  - split; [intros [Hf|[]]; discriminate|intros [d [ds Hf]]; discriminate].
  - split; [intros [Hf|[]]; discriminate|intros [err Hf]; discriminate].
  - intros _. now repeat split.
  - split; [intros [Hf|[Hf|[Hf|[]]]]; discriminate
           |intros [d [ds Hf]]; discriminate].
  - split; [intros _; now exists err|intros _; right; right; now left].
  - intros [Hf|Hf]; discriminate.
Qed.

Lemma startScan_outcomes_witness :
  let r := {| view := {| scanResults :=
                           [{| fileName := lit "a.png";
                               decodedText := lit "ab" |}];
                         isScanning := false; isProcessingFile := false;
                         scannerRef := None |};
              log := []; draws := 0 |} in
  callsOf (startScan (Resolved (Some []))) r = [Ev_getCameras] /\
  scanResults (view (exec (startScan (Resolved (Some []))) r)) = [].
Proof.
  intros r.
  destruct (startScan_outcomes (Resolved (Some [])) r)
    as [C [_ [_ [_ S]]]].
  split; [apply S; now right|exact C].
Defined.

(** X18.  When cameras are found [startScan] never asks a scanner to stop,
    whatever session the view holds, and puts a fresh scanner in
    [scannerRef]: right after it no session is active for [stopScan], which
    does nothing.  If the start then fails the view is idle again, the start
    controls are shown, and the scanner stays in [scannerRef]. *)
Theorem startScan_replaces_scanner (d : jsstring) (ds : list jsstring)
        (r : Run ScannerView.State) :
  let r1 := exec (startScan (Resolved (Some (d :: ds)))) r in
  ~ In Ev_scannerStop (callsOf (startScan (Resolved (Some (d :: ds)))) r) /\
  scannerRef (view r1) = Some (new_Html5Qrcode readerId) /\
  isScanning (view r1) = true /\
  sessionActive (view r1) = false /\
  stopScan r1 = (tt, r1) /\
  (forall err,
      let r2 := exec (start_catch err) r1 in
      isScanning (view r2) = false
      /\ Markup.startControlsShown (view r2) = true
      /\ scannerRef (view r2) = Some (new_Html5Qrcode readerId)
      /\ stopScan r2 = (tt, r2)).
Proof.
  intros r1. subst r1. unfold callsOf, exec. rewrite startScan_run.
  cbn [snd view log]. rewrite skipn_app_exact.
  repeat split.
  intros [Hf|[Hf|[]]]; discriminate.
Qed.

Lemma startScan_replaces_scanner_witness :
  let old := {| elementId := readerId; Html5Qrcode_isScanning := true |} in
  let r := {| view := {| scanResults := []; isScanning := false;
                         isProcessingFile := false;
                         scannerRef := Some old |};
              log := []; draws := 0 |} in
  let r1 := exec (startScan (Resolved (Some [lit "Back camera"]))) r in
  sessionActive (view r) = true /\
  sessionActive (view r1) = false /\
  stopScan r1 = (tt, r1).
Proof.
  intros old r r1.
  destruct (startScan_replaces_scanner (lit "Back camera") [] r)
    as [_ [_ [_ [A [S _]]]]].
  split; [reflexivity|split; [exact A|exact S]].
Defined.

(** X19.  The cleanup of the effect does what [stopScan] does, in every
    state. *)
Theorem cleanup_is_stopScan (r : Run ScannerView.State) :
  cleanup r = stopScan r.
Proof.
  unfold cleanup, stopScan, bind, getState. cbn [fst snd].
  destruct (scannerRef (view r)) as [scanner|] eqn:E; [|reflexivity].
  destruct (Html5Qrcode_isScanning scanner) eqn:S; [|reflexivity].
  now rewrite E, S.
Qed.

(** X20.  A stop that fails leaves the scanner in [scannerRef], so that the
    session is as active as before and a further [stopScan] asks again;
    after a stop that succeeds a further [stopScan] does nothing. *)
Theorem stop_settlement_and_retry (r : Run ScannerView.State) :
  (forall err,
      let r' := exec (stop_catch err) r in
      scannerRef (view r') = scannerRef (view r)
      /\ sessionActive (view r') = sessionActive (view r)
      /\ (sessionActive (view r) = true ->
          callsOf stopScan r' = [Ev_scannerStop])) /\
  (let r' := exec stop_then r in
   sessionActive (view r') = false /\ stopScan r' = (tt, r')).
Proof.
  split.
  - intros err r'. subst r'. repeat split.
    intros Hactive. apply callsOf_appended. unfold exec at 1.
    rewrite stopScan_active; [reflexivity|exact Hactive].
  - now split.
Qed.

Lemma stop_settlement_and_retry_witness :
  let scanner := {| elementId := readerId; Html5Qrcode_isScanning := true |} in
  let r := {| view := {| scanResults := []; isScanning := true;
                         isProcessingFile := false;
                         scannerRef := Some scanner |};
              log := [Ev_scannerStop]; draws := 0 |} in
  sessionActive (view r) = true /\
  callsOf stopScan (exec (stop_catch (lit "NotFoundError")) r)
  = [Ev_scannerStop].
Proof.
  intros scanner r. split; [reflexivity|].
  apply (proj1 (stop_settlement_and_retry r) (lit "NotFoundError")).
  reflexivity.
Defined.

(** X21.  A frame decoded when no session is active still replaces the
    results by its single result, and asks no scanner to stop. *)
Theorem late_frame_replaces_results (text : jsstring)
        (r : Run ScannerView.State) :
  sessionActive (view r) = false ->
  scanResults (view (exec (qrCodeSuccessCallback text) r))
  = [{| fileName := lit "Camera Scan"; decodedText := text |}] /\
  callsOf (qrCodeSuccessCallback text) r = [] /\
  isScanning (view (exec (qrCodeSuccessCallback text) r))
  = isScanning (view r).
Proof.
  intros Hidle.
  assert (G : qrCodeSuccessCallback text r =
              (tt, {| view := {| scanResults :=
                                   [{| fileName := lit "Camera Scan";
                                       decodedText := text |}];
                                 isScanning := isScanning (view r);
                                 isProcessingFile := isProcessingFile (view r);
                                 scannerRef := scannerRef (view r) |};
                      log := log r; draws := draws r |})).
  { unfold qrCodeSuccessCallback, bind, setScanResults, setState.
    now rewrite stopScan_inactive. }
  unfold callsOf, exec. rewrite G. cbn [snd view log].
  repeat split. rewrite <- (app_nil_r (log r)) at 2. apply skipn_app_exact.
Qed.

Lemma late_frame_replaces_results_witness :
  let r := {| view := {| scanResults :=
                           [{| fileName := lit "a.png";
                               decodedText := lit "ab" |}];
                         isScanning := false; isProcessingFile := false;
                         scannerRef := None |};
              log := []; draws := 0 |} in
  sessionActive (view r) = false /\
  callsOf (qrCodeSuccessCallback (lit "cd")) r = [].
Proof.
  intros r. split; [reflexivity|].
  apply (late_frame_replaces_results (lit "cd") r). reflexivity.
Defined.

(** *** The service worker *)

Import ServiceWorker.

Lemma filter_filter {A} (p q : A -> bool) (l : list A) :
  filter p (filter q l) = filter (fun x => q x && p x) l.
Proof.
  induction l as [|a l IH]; simpl; [reflexivity|].
  destruct (q a); simpl; [destruct (p a)|]; now rewrite IH.
Qed.

Lemma filter_all {A} (p : A -> bool) (l : list A) :
  (forall x, In x l -> p x = true) -> filter p l = l.
Proof.
  induction l as [|a l IH]; simpl; intros Hall; [reflexivity|].
  rewrite (Hall a (or_introl eq_refl)). f_equal. apply IH.
  intros x Hx. apply Hall. now right.
Qed.

Lemma notListed_iff (name : jsstring) :
  notListed name = false <-> name = CACHE_NAME.
Proof.
  unfold notListed, cacheWhitelist. cbn [existsb]. rewrite orb_false_r.
  rewrite negb_false_iff. apply eqb_eq.
Qed.

(** What [deleteOld] keeps, and what it deletes. *)
Lemma deleteOld_storage (cacheNames : list jsstring) :
  forall cs,
    fst (deleteOld cacheNames cs)
    = filter (fun e => negb (existsb (fun n => notListed n && JS.eqb (fst e) n)
                                     cacheNames)) cs.
Proof.
  induction cacheNames as [|n rest IH]; intros cs; cbn [deleteOld existsb].
  - symmetry. now apply filter_all.
  - destruct (notListed n) eqn:E.
    + specialize (IH (caches_delete n cs)).
      destruct (deleteOld rest (caches_delete n cs)) as [cs' calls].
      cbn [fst] in *. rewrite IH. unfold caches_delete.
      rewrite filter_filter. apply filter_ext. intros e. cbn [andb].
      now rewrite negb_orb.
    + rewrite IH. apply filter_ext. intros e. reflexivity.
Qed.

Lemma deleteOld_calls (cacheNames : list jsstring) :
  forall cs name,
    In (Sw_cachesDelete name) (snd (deleteOld cacheNames cs))
    <-> In name cacheNames /\ name <> CACHE_NAME.
Proof.
  induction cacheNames as [|n rest IH]; intros cs name; cbn [deleteOld In].
  - cbn. tauto.
  - destruct (notListed n) eqn:E.
    + specialize (IH (caches_delete n cs) name).
      destruct (deleteOld rest (caches_delete n cs)) as [cs' calls].
      cbn [snd In] in *. rewrite IH. split.
      * intros [Hf|[Hn|Hin]]; [discriminate| |tauto].
        injection Hn as <-. split; [now left|].
        intros Hc. apply notListed_iff in Hc. congruence.
      * intros [[<-|Hin] Hne]; [right; now left|tauto].
    + rewrite IH. apply notListed_iff in E. subst n. split; [tauto|].
      intros [[<-|Hin] Hne]; tauto.
Qed.

Lemma deleteOld_listed (cacheNames : list jsstring) (cs : CacheStorage) :
  (forall n, In n cacheNames -> n = CACHE_NAME) ->
  deleteOld cacheNames cs = (cs, []).
Proof.
  induction cacheNames as [|n rest IH]; intros Hall; cbn [deleteOld];
    [reflexivity|].
  assert (E : notListed n = false)
    by (apply notListed_iff, Hall; now left).
  rewrite E. apply IH. intros m Hm. apply Hall. now right.
Qed.

Lemma onActivate_storage (cs : CacheStorage) :
  fst (onActivate cs) = filter (fun e => JS.eqb (fst e) CACHE_NAME) cs.
Proof.
  unfold onActivate. rewrite deleteOld_storage. apply filter_ext_in.
  intros e He. destruct (JS.eqb (fst e) CACHE_NAME) eqn:E.
  - apply eqb_eq in E. apply negb_true_iff, not_true_is_false.
    intros Hex. apply existsb_exists in Hex. destruct Hex as [n [_ Hn]].
    apply andb_true_iff in Hn. destruct Hn as [Hl Hn].
    apply eqb_eq in Hn. rewrite <- Hn, E in Hl.
    now rewrite (proj2 (notListed_iff CACHE_NAME) eq_refl) in Hl.
  - apply negb_false_iff, existsb_exists. exists (fst e).
    split; [now apply in_map|]. rewrite eqb_refl, andb_true_r.
    destruct (notListed (fst e)) eqn:L; [reflexivity|].
    apply notListed_iff in L. rewrite L in E.
    now rewrite eqb_refl in E.
Qed.

(** X22.  Activation deletes exactly the caches whose name is not the
    current cache name and keeps the current cache with its content; a
    second activation deletes nothing. *)
Theorem onActivate_evicts_old (cs : CacheStorage) :
  fst (onActivate cs) = filter (fun e => JS.eqb (fst e) CACHE_NAME) cs /\
  (forall name,
      In (Sw_cachesDelete name) (snd (onActivate cs))
      <-> In name (map fst cs) /\ name <> CACHE_NAME) /\
  (forall c, In (CACHE_NAME, c) cs -> In (CACHE_NAME, c) (fst (onActivate cs))) /\
  onActivate (fst (onActivate cs)) = (fst (onActivate cs), []).
Proof.
  split; [apply onActivate_storage|split; [|split]].
  - intros name. apply deleteOld_calls.
  - intros c Hin. rewrite onActivate_storage. apply filter_In.
    split; [assumption|apply eqb_refl].
  - unfold onActivate at 1. apply deleteOld_listed.
    intros n Hn. apply in_map_iff in Hn. destruct Hn as [e [<- He]].
    rewrite onActivate_storage in He. apply filter_In in He.
    now apply eqb_eq.
Qed.

Lemma onActivate_evicts_old_witness :
  let page := {| ok := true; body := lit "<html>" |} in
  let cs := [(lit "qr-suite-cache-v2", [(lit "/", page)]);
             (CACHE_NAME, [(lit "/", page)])] in
  In (lit "qr-suite-cache-v2") (map fst cs) /\
  lit "qr-suite-cache-v2" <> CACHE_NAME /\
  In (Sw_cachesDelete (lit "qr-suite-cache-v2")) (snd (onActivate cs)) /\
  fst (onActivate cs) = [(CACHE_NAME, [(lit "/", page)])].
Proof.
  intros page cs.
  assert (Hin : In (lit "qr-suite-cache-v2") (map fst cs)) by now left.
  assert (Hne : lit "qr-suite-cache-v2" <> CACHE_NAME) by discriminate.
  split; [exact Hin|split; [exact Hne|split; [|reflexivity]]].
  apply (proj1 (proj2 (onActivate_evicts_old cs))). now split.
Defined.

Lemma cache_match_put_same (url : jsstring) (resp : Response) (c : Cache) :
  cache_match url (cache_put url resp c) = Some resp.
Proof.
  induction c as [|[u r0] rest IH]; cbn [cache_put cache_match].
  - now rewrite eqb_refl.
  - destruct (JS.eqb u url) eqn:E; cbn [cache_match]; now rewrite E.
Qed.

Lemma cache_match_put_other (url other : jsstring) (resp : Response)
      (c : Cache) :
  other <> url ->
  cache_match url (cache_put other resp c) = cache_match url c.
Proof.
  intros Hne. induction c as [|[u r0] rest IH]; cbn [cache_put cache_match].
  - now rewrite eqb_neq.
  - destruct (JS.eqb u other) eqn:E; cbn [cache_match].
    + apply eqb_eq in E. subst u. now rewrite eqb_neq.
    + now rewrite IH.
Qed.

Section WorkerFacts.
Context `{Network}.

Lemma fetchAll_resolved (urls : list jsstring) :
  (forall u, In u urls -> exists resp, fetch u = Resolved resp /\ ok resp = true) ->
  exists entries,
    fetchAll urls = Resolved entries
    /\ map fst entries = urls
    /\ forall u resp, In (u, resp) entries -> fetch u = Resolved resp.
Proof.
  induction urls as [|u rest IH]; intros Hall; cbn [fetchAll].
  - exists []. repeat split. intros u resp [].
  - destruct (Hall u (or_introl eq_refl)) as [resp [E Hok]].
    destruct IH as [entries [F [Hk Hv]]].
    { intros v Hv. apply Hall. now right. }
    rewrite E, Hok, F. exists ((u, resp) :: entries).
    split; [reflexivity|split; [cbn; now rewrite Hk|]].
    intros v r [Hin|Hin]; [injection Hin as <- <-; exact E|now apply Hv].
Qed.

Lemma putAll_match (entries : list (jsstring * Response)) :
  (forall u resp, In (u, resp) entries -> fetch u = Resolved resp) ->
  forall (c : Cache) (url : jsstring) (resp : Response),
    fetch url = Resolved resp ->
    In url (map fst entries) \/ cache_match url c = Some resp ->
    cache_match url (putAll entries c) = Some resp.
Proof.
  unfold putAll. induction entries as [|[u r0] rest IH];
    intros Hv c url resp E Hin; cbn [fold_left fst snd map In] in *.
  - destruct Hin as [[]|Hc]. exact Hc.
  - apply IH; [intros v r Hr; apply Hv; now right|exact E|].
    destruct (in_dec (list_eq_dec N.eq_dec) url (map fst rest)) as [Hr|Hr];
      [now left|right].
    destruct (list_eq_dec N.eq_dec u url) as [->|Hne].
    + rewrite cache_match_put_same.
      specialize (Hv url r0 (or_introl eq_refl)). congruence.
    + rewrite cache_match_put_other by exact Hne.
      destruct Hin as [[Hu|Hu]|Hc]; [congruence|contradiction|exact Hc].
Qed.

End WorkerFacts.

Lemma caches_open_has (name : jsstring) (cs : CacheStorage) :
  caches_has name (caches_open name cs) = true.
Proof.
  unfold caches_open. destruct (caches_has name cs) eqn:E; [exact E|].
  unfold caches_has. rewrite existsb_app. cbn. rewrite eqb_refl.
  apply orb_true_r.
Qed.

Lemma filter_cache_update (name : jsstring) (f : Cache -> Cache)
      (cs : CacheStorage) :
  caches_has name cs = true ->
  exists c rest,
    filter (fun e => JS.eqb (fst e) name) (cache_update name f cs)
    = (name, f c) :: rest.
Proof.
  unfold caches_has. induction cs as [|[n c] rest IH];
    cbn [existsb cache_update fst]; [discriminate|].
  destruct (JS.eqb n name) eqn:E.
  - intros _. cbn [filter fst]. rewrite E. apply eqb_eq in E. subst n.
    now exists c, (filter (fun e => JS.eqb (fst e) name) rest).
  - cbn [orb filter fst]. rewrite E. exact IH.
Qed.

(** X23.  When every listed asset can be fetched with an [ok] response, the
    installation succeeds, and after the activation a request for any listed
    asset is answered from the cache with the response fetched at
    installation, without a call to the network. *)
Theorem install_then_offline `{Network} (cs : CacheStorage) :
  (forall u, In u urlsToCache ->
             exists resp, fetch u = Resolved resp /\ ok resp = true) ->
  fst (fst (onInstall cs)) = Resolved tt /\
  forall u resp,
    In u urlsToCache -> fetch u = Resolved resp ->
    onFetch u (fst (onActivate (snd (fst (onInstall cs)))))
    = (Resolved resp, []).
Proof.
  intros Hall. destruct (fetchAll_resolved urlsToCache Hall)
    as [entries [F [Hk Hv]]].
  unfold onInstall. rewrite F. cbn [fst snd]. split; [reflexivity|].
  intros u resp Hu E. rewrite onActivate_storage.
  destruct (filter_cache_update CACHE_NAME (putAll entries)
              (caches_open CACHE_NAME cs) (caches_open_has CACHE_NAME cs))
    as [c [rest ->]].
  unfold onFetch. cbn [caches_match].
  rewrite (putAll_match entries Hv c u resp E); [reflexivity|].
  left. now rewrite Hk.
Qed.

Lemma install_then_offline_witness :
  let stale := {| ok := true; body := lit "old page" |} in
  let cs := [(lit "qr-suite-cache-v2", [(lit "/index.html", stale)])] in
  (forall u, In u urlsToCache ->
             exists resp, @fetch SampleNetwork.online u = Resolved resp
                          /\ ok resp = true) /\
  @onFetch SampleNetwork.online (lit "/index.html")
     (fst (onActivate (snd (fst (@onInstall SampleNetwork.online cs)))))
  = (Resolved {| ok := true; body := lit "/index.html" |}, []).
Proof.
  intros stale cs.
  assert (Hall : forall u, In u urlsToCache ->
                           exists resp, @fetch SampleNetwork.online u
                                        = Resolved resp /\ ok resp = true).
  { intros u _. now eexists. }
  split; [exact Hall|].
  apply (proj2 (@install_then_offline SampleNetwork.online cs Hall)).
  - right. now left.
  - reflexivity.
Defined.

Lemma fetchAll_rejected `{Network} (urls : list jsstring) :
  (exists u, In u urls /\ forall resp, fetch u = Resolved resp -> ok resp = false) ->
  exists err, fetchAll urls = Rejected err.
Proof.
  induction urls as [|v rest IH]; intros [u [Hin Hbad]]; cbn [fetchAll].
  - destruct Hin.
  - destruct (fetch v) as [resp|err] eqn:E; [|now exists err].
    destruct (ok resp) eqn:Hok; [|now eexists].
    destruct Hin as [<-|Hin].
    + specialize (Hbad resp E). congruence.
    + destruct IH as [err F]; [now exists u|]. rewrite F. now exists err.
Qed.

Lemma caches_match_open (name url : jsstring) (cs : CacheStorage) :
  caches_match url (caches_open name cs) = caches_match url cs.
Proof.
  unfold caches_open. destruct (caches_has name cs); [reflexivity|].
  induction cs as [|[n c] rest IH]; cbn [app caches_match cache_match];
    [reflexivity|].
  now rewrite IH.
Qed.

(** X24.  When one listed asset cannot be fetched, or is fetched with a
    response that is not [ok], the installation fails as a whole and caches
    nothing: every request is matched as before it, although all the assets
    were requested. *)
Theorem install_fails_as_a_whole `{Network} (cs : CacheStorage) :
  (exists u, In u urlsToCache
             /\ forall resp, fetch u = Resolved resp -> ok resp = false) ->
  (exists err, fst (fst (onInstall cs)) = Rejected err) /\
  (forall request,
      caches_match request (snd (fst (onInstall cs)))
      = caches_match request cs) /\
  (forall u, In u urlsToCache -> In (Sw_fetch u) (snd (onInstall cs))).
Proof.
  intros Hbad. destruct (fetchAll_rejected urlsToCache Hbad) as [err F].
  unfold onInstall. rewrite F. cbn [fst snd]. split; [now exists err|split].
  - intros request. apply caches_match_open.
  - intros u Hu. right. now apply in_map.
Qed.

Lemma install_fails_as_a_whole_witness :
  let offline : Network :=
    {| fetch := fun _ => Rejected (lit "Failed to fetch") |} in
  (exists u, In u urlsToCache
             /\ forall resp, @fetch offline u = Resolved resp
                             -> ok resp = false) /\
  exists err, fst (fst (@onInstall offline [])) = Rejected err.
Proof.
  intros offline.
  assert (Hbad : exists u, In u urlsToCache
                           /\ forall resp, @fetch offline u = Resolved resp
                                           -> ok resp = false).
  { exists (lit "/"). split; [now left|]. intros resp E. discriminate E. }
  split; [exact Hbad|].
  exact (proj1 (@install_fails_as_a_whole offline [] Hbad)).
Defined.
